(** * Connection management of the WebSocket chat client

    A shallow embedding of the two connection managers of the repository:

    - [HomeView]: the script of the view component (refs [socket], [status],
      [messages], [pingInterval], [username], [userCount] and the functions
      [initWebSocket] ... [updateUsername]);
    - [Service]: the class [Websocket] of [src/services/websocket.js].

    Both run on one event loop: every handler runs to completion, and the
    browser delivers transport events and timer callbacks between handlers.
    The browser side (the transports ever created, the active timers, the
    error console) is therefore part of the modelled state, and a run is a
    list of events. *)

From Corelib Require Import PrimFloat.
From stdpp Require Import base option list gmap strings.

Open Scope string_scope.
Set Warnings "-register-all".

(** ** JavaScript values *)

(** The values [JSON.parse] produces and the object literals the code
    builds.  A number is an IEEE double, as in JavaScript.  An object lists
    its own properties in insertion order, with distinct keys. *)
Inductive JsValue : Type :=
| JNull
| JBool (b : bool)
| JNum (n : float)
| JStr (s : string)
| JArr (items : list JsValue)
| JObj (fields : list (string * JsValue)).

(** Exceptions the modelled code can meet. *)
Inductive JsError : Type :=
| TypeError                      (* property read or call on null *)
| InvalidStateError              (* send() on a transport still CONNECTING *)
| SyntaxError                    (* JSON.parse on a text that is not JSON *)
| Error_not_initialized          (* new Error('WebSocket is not initialized') *)
| Error_max_attempts (n : Z).    (* new Error(`Maximum number of attempts (${n}) exceeded.`) *)

(** Result of an expression that may throw. *)
Inductive Completion (A : Type) : Type :=
| Normal (a : A)
| Throw (e : JsError).
Arguments Normal {A} a.
Arguments Throw {A} e.

(** State of the promise an [async] function has returned. *)
Inductive Settlement : Type :=
| Pending
| Fulfilled
| Rejected (e : JsError).

Fixpoint assoc (k : string) (fields : list (string * JsValue)) : option JsValue :=
  match fields with
  | [] => None
  | (k', v) :: rest => if String.eqb k k' then Some v else assoc k rest
  end.

(** [v.k] for a property name [k] that no prototype defines (the code reads
    only [type] and [message]): a TypeError on null, [undefined] ([None]) on
    a primitive, an array or an object without that key. *)
Definition member (k : string) (v : JsValue) : Completion (option JsValue) :=
  match v with
  | JNull => Throw TypeError
  | JObj fields => Normal (assoc k fields)
  | _ => Normal None
  end.

(** [x === k] for a string literal [k] and a value [x] that may be [undefined]. *)
Definition is_string (k : string) (x : option JsValue) : bool :=
  match x with
  | Some (JStr s) => String.eqb s k
  | _ => false
  end.

(** [x || 0] on a number: NaN and both zeros are falsy. *)
Definition or_zero (x : float) : float :=
  if (PrimFloat.eqb x x && negb (PrimFloat.eqb x PrimFloat.zero))%bool
  then x else PrimFloat.zero.

(** What the code takes from the JavaScript platform.  [JSON_parse] is
    [None] where [JSON.parse] throws its SyntaxError; [parseInt] takes the
    value read from [data.message] ([None] for [undefined]) and yields a
    number, NaN included; [trim] is [String.prototype.trim]. *)
Class Platform : Type := {
  JSON_parse : string → option JsValue;
  parseInt : option JsValue → float;
  trim : string → string;
}.

(** ** The browser: transports and timers *)

Module WebSocket.

Inductive ReadyState : Type := CONNECTING | OPEN | CLOSING | CLOSED.

Global Instance ReadyState_eq_dec : EqDecision ReadyState.
Proof. solve_decision. Defined.

(** One [WebSocket] object.  [sent] lists, oldest first, the values whose
    [JSON.stringify] text was handed to [send] while the transport was open:
    the frames on the wire. *)
Record WebSocketObj : Type := {
  url : string;
  readyState : ReadyState;
  sent : list JsValue;
}.

Definition new_WebSocket (u : string) : WebSocketObj :=
  {| url := u; readyState := CONNECTING; sent := [] |}.

Definition set_readyState (r : ReadyState) (w : WebSocketObj) : WebSocketObj :=
  {| url := url w; readyState := r; sent := sent w |}.

Definition push_frame (f : JsValue) (w : WebSocketObj) : WebSocketObj :=
  {| url := url w; readyState := readyState w; sent := sent w ++ [f] |}.

(** A transport is live until its close event has been delivered. *)
Definition live (w : WebSocketObj) : bool :=
  bool_decide (readyState w ≠ CLOSED).

Definition live_count (ws : list WebSocketObj) : nat :=
  length (filter (λ w, live w = true) ws).

(** [readyState] of the transport behind handle [h]. *)
Definition readyState_at (h : nat) (ws : list WebSocketObj) : option ReadyState :=
  readyState <$> ws !! h.

Definition is_open (h : nat) (ws : list WebSocketObj) : bool :=
  bool_decide (readyState_at h ws = Some OPEN).

(** [ws.send(JSON.stringify(frame))]: throws while CONNECTING, transmits
    when OPEN, and drops the data without an exception once the transport is
    CLOSING or CLOSED. *)
Definition ws_send (h : nat) (frame : JsValue) (ws : list WebSocketObj)
  : Completion (list WebSocketObj) :=
  match ws !! h with
  | None => Throw TypeError
  | Some w =>
      match readyState w with
      | CONNECTING => Throw InvalidStateError
      | OPEN => Normal (<[h := push_frame frame w]> ws)
      | CLOSING | CLOSED => Normal ws
      end
  end.

(** [ws.close()]: starts the closing handshake; the close event comes
    later, as an event of its own. *)
Definition ws_close (h : nat) (ws : list WebSocketObj) : list WebSocketObj :=
  match ws !! h with
  | None => ws
  | Some w =>
      match readyState w with
      | CONNECTING | OPEN => <[h := set_readyState CLOSING w]> ws
      | CLOSING | CLOSED => ws
      end
  end.

End WebSocket.
Export WebSocket.

(** A timer of [setInterval] or [setTimeout], with its callback and its
    period or delay in milliseconds.  Timer handles are positive integers,
    so a stored handle is always truthy. *)
Inductive Timer (C : Type) : Type :=
| Interval (cb : C) (ms : Z)
| Timeout (cb : C) (ms : Z).
Arguments Interval {C} cb ms.
Arguments Timeout {C} cb ms.

Section Timers.
Context {C : Type}.

(** [setInterval] and [setTimeout] hand out the next free handle. *)
Definition arm (t : Timer C) (timers : gmap positive (Timer C)) (next : positive)
  : gmap positive (Timer C) * positive :=
  (<[next := t]> timers, Pos.succ next).

(** [clearInterval(id)], with [id] possibly null. *)
Definition disarm (id : option positive) (timers : gmap positive (Timer C))
  : gmap positive (Timer C) :=
  match id with
  | Some i => delete i timers
  | None => timers
  end.
End Timers.

(** ** The view component *)

Module HomeView.

(** [CONFIG], read once from the build environment, and the parts of
    [window.location] the URL is resolved from.  The numeric entries are the
    integers [parseInt] read from the environment; [pingInterval_ms] is
    [CONFIG.webSocket.pingInterval], renamed apart from the ref
    [pingInterval]. *)
Class Config : Type := {
  isIntegrated : bool;
  protocol : string;
  secureProtocol : string;
  host : string;
  port : string;
  endpoint : string;
  reconnectTimeout : Z;
  pingInterval_ms : Z;
  connectionAttempts : Z;
  connectionInterval : Z;
  location_protocol : string;
  location_hostname : string;
  location_port : string;
}.

(** Timer callbacks of the component.  [PollCb] is the closure of
    [waitForOpenConnection]: its counter [currentAttempt], and the text of
    the [sendChatMessage] call that awaits it. *)
Inductive Callback : Type :=
| PingCb
| ReconnectCb
| PollCb (currentAttempt : Z) (messageText : string).

(** Lines written with [console.error], and exceptions no handler caught
    (the browser reports those on the same console).  The [console.log]
    lines of the component are diagnostics only and are left out. *)
Inductive ConsoleError : Type :=
| LogNotInitialized               (* 'WebSocket is not initialized' *)
| LogSendError (e : JsError)      (* 'Error sending message:', err *)
| LogConnectionError              (* 'WebSocket Connection error: ', e *)
| LogUncaught (e : JsError).

(** The refs of the component, then the browser state they refer to. *)
Record State : Type := {
  socket : option nat;                    (* socket.value: a handle into [sockets] *)
  status : nat;                           (* 0-closed 1-connected 2-manually closed *)
  messages : list JsValue;
  pingInterval : option positive;
  username : string;
  userCount : float;
  sockets : list WebSocketObj;            (* every transport created so far *)
  timers : gmap positive (Timer Callback);
  nextTimer : positive;
  console : list ConsoleError;
}.

Definition initial (guest : string) : State :=
  {| socket := None; status := 0; messages := []; pingInterval := None;
     username := guest; userCount := PrimFloat.zero;
     sockets := []; timers := ∅; nextTimer := 1%positive; console := [] |}.

Definition set_socket (v : option nat) (s : State) : State :=
  {| socket := v; status := status s; messages := messages s;
     pingInterval := pingInterval s; username := username s;
     userCount := userCount s; sockets := sockets s; timers := timers s;
     nextTimer := nextTimer s; console := console s |}.

Definition set_status (v : nat) (s : State) : State :=
  {| socket := socket s; status := v; messages := messages s;
     pingInterval := pingInterval s; username := username s;
     userCount := userCount s; sockets := sockets s; timers := timers s;
     nextTimer := nextTimer s; console := console s |}.

Definition set_messages (v : list JsValue) (s : State) : State :=
  {| socket := socket s; status := status s; messages := v;
     pingInterval := pingInterval s; username := username s;
     userCount := userCount s; sockets := sockets s; timers := timers s;
     nextTimer := nextTimer s; console := console s |}.

Definition set_pingInterval (v : option positive) (s : State) : State :=
  {| socket := socket s; status := status s; messages := messages s;
     pingInterval := v; username := username s;
     userCount := userCount s; sockets := sockets s; timers := timers s;
     nextTimer := nextTimer s; console := console s |}.

Definition set_username (v : string) (s : State) : State :=
  {| socket := socket s; status := status s; messages := messages s;
     pingInterval := pingInterval s; username := v;
     userCount := userCount s; sockets := sockets s; timers := timers s;
     nextTimer := nextTimer s; console := console s |}.

Definition set_userCount (v : float) (s : State) : State :=
  {| socket := socket s; status := status s; messages := messages s;
     pingInterval := pingInterval s; username := username s;
     userCount := v; sockets := sockets s; timers := timers s;
     nextTimer := nextTimer s; console := console s |}.

Definition set_sockets (v : list WebSocketObj) (s : State) : State :=
  {| socket := socket s; status := status s; messages := messages s;
     pingInterval := pingInterval s; username := username s;
     userCount := userCount s; sockets := v; timers := timers s;
     nextTimer := nextTimer s; console := console s |}.

Definition set_timers (v : gmap positive (Timer Callback)) (n : positive) (s : State) : State :=
  {| socket := socket s; status := status s; messages := messages s;
     pingInterval := pingInterval s; username := username s;
     userCount := userCount s; sockets := sockets s; timers := v;
     nextTimer := n; console := console s |}.

Definition console_error (e : ConsoleError) (s : State) : State :=
  {| socket := socket s; status := status s; messages := messages s;
     pingInterval := pingInterval s; username := username s;
     userCount := userCount s; sockets := sockets s; timers := timers s;
     nextTimer := nextTimer s; console := console s ++ [e] |}.

(** [window.setInterval] / [setTimeout]: the new handle and the new state. *)
Definition setTimer (t : Timer Callback) (s : State) : positive * State :=
  let '(tm, n) := arm t (timers s) (nextTimer s) in (nextTimer s, set_timers tm n s).

Definition clearInterval (id : option positive) (s : State) : State :=
  set_timers (disarm id (timers s)) (nextTimer s) s.

(** The object literals of the four-field wire message, keys in source order. *)
Definition wire_message (type name message timestamp : string) : JsValue :=
  JObj [("type", JStr type); ("name", JStr name);
        ("message", JStr message); ("timestamp", JStr timestamp)].

Definition system_message (raw timestamp : string) : JsValue :=
  JObj [("name", JStr "System"); ("message", JStr raw);
        ("timestamp", JStr timestamp); ("type", JStr "CHAT")].

Section Component.
Context {P : Platform} {cfg : Config}.

Definition getWebSocketUrl : string :=
  let socketProtocol :=
    if String.eqb location_protocol "https:" then secureProtocol else protocol in
  if isIntegrated then
    let socketUrl := socketProtocol +:+ "://" +:+ location_hostname in
    let socketUrl :=
      if (negb (String.eqb location_port "") &&
          negb ((String.eqb location_protocol "http:" && String.eqb location_port "80") ||
                (String.eqb location_protocol "https:" && String.eqb location_port "443")))%bool
      then socketUrl +:+ ":" +:+ location_port else socketUrl in
    socketUrl +:+ endpoint
  else
    let socketUrl := socketProtocol +:+ "://" +:+ host in
    let socketUrl :=
      if negb (String.eqb port "") then socketUrl +:+ ":" +:+ port else socketUrl in
    socketUrl +:+ endpoint.

(** The four handlers installed on the new transport are the same
    functions for every transport, so the transport need not store them. *)
Definition initWebSocket (s : State) : State :=
  set_socket (Some (length (sockets s)))
    (set_sockets (sockets s ++ [new_WebSocket getWebSocketUrl]) s).

Definition clearPingInterval (s : State) : State :=
  match pingInterval s with
  | Some id => set_pingInterval None (clearInterval (Some id) s)
  | None => s
  end.

Definition startPingInterval (s : State) : State :=
  let s := match pingInterval s with
           | Some id => clearInterval (Some id) s
           | None => s
           end in
  let '(id, s) := setTimer (Interval PingCb pingInterval_ms) s in
  set_pingInterval (Some id) s.

(** The callback of the ping interval. *)
Definition ping_tick (now : string) (s : State) : State :=
  match socket s with
  | Some h =>
      if (status s =? 1)%nat then
        match ws_send h (wire_message "PING" "System" "ping" now) (sockets s) with
        | Normal ws => set_sockets ws s
        | Throw e => console_error (LogUncaught e) s
        end
      else clearPingInterval s
  | None => clearPingInterval s
  end.

Definition sendJoinMessage (now : string) (s : State) : State :=
  match socket s with
  | None => s
  | Some h =>
      if negb (is_open h (sockets s)) then s
      else
        match ws_send h (wire_message "JOIN" (username s) "" now) (sockets s) with
        | Normal ws => set_sockets ws s
        | Throw e => s    (* the rejected promise is dropped by every caller *)
        end
  end.

Definition websocketOnOpen (now : string) (s : State) : State :=
  sendJoinMessage now (startPingInterval (set_status 1 s)).

Definition websocketOnError (s : State) : State :=
  console_error LogConnectionError s.

(** The [try] block of [websocketOnMessage], on the parsed value; the
    [switch] compares [data.type] with its labels by strict equality. *)
Definition handle_data (data : JsValue) (s : State) : Completion State :=
  match member "type" data with
  | Throw e => Throw e
  | Normal ty =>
      if is_string "PONG" ty then Normal s
      else if is_string "USER_COUNT" ty then
        match member "message" data with
        | Throw e => Throw e
        | Normal m => Normal (set_userCount (or_zero (parseInt m)) s)
        end
      else Normal (set_messages (messages s ++ [data]) s)
  end.

Definition websocketOnMessage (e_data : string) (now : string) (s : State) : State :=
  let attempt :=
    match JSON_parse e_data with
    | None => Throw SyntaxError
    | Some data => handle_data data s
    end in
  match attempt with
  | Normal s' => s'
  | Throw _ => set_messages (messages s ++ [system_message e_data now]) s
  end.

Definition websocketClose (s : State) : State :=
  let s := clearPingInterval s in
  if negb (status s =? 2)%nat then
    snd (setTimer (Timeout ReconnectCb reconnectTimeout) (set_status 0 s))
  else set_status 2 s.

(** The callback of the reconnect timeout. *)
Definition reconnect_cb (s : State) : State :=
  if (status s =? 0)%nat then initWebSocket s else s.

Definition closeConnection (s : State) : State :=
  match socket s with
  | Some h =>
      let s := clearPingInterval (set_status 2 s) in
      set_socket None (set_sockets (ws_close h (sockets s)) s)
  | None => s
  end.

(** The executor of the promise of [waitForOpenConnection]: rejects at
    once without a transport, otherwise starts the polling interval. *)
Definition waitForOpenConnection (messageText : string) (s : State) : Completion State :=
  match socket s with
  | None => Throw Error_not_initialized
  | Some _ => Normal (snd (setTimer (Interval (PollCb 0 messageText) connectionInterval) s))
  end.

Definition send_chat (h : nat) (messageText now : string) (s : State)
  : Completion State :=
  match ws_send h (wire_message "CHAT" (username s) messageText now) (sockets s) with
  | Normal ws => Normal (set_sockets ws s)
  | Throw e => Throw e
  end.

(** [sendChatMessage] after its [await] has resolved: the rest of the
    [try] block, with its [catch]. *)
Definition resume_send (messageText now : string) (s : State) : State * Settlement :=
  let attempt :=
    match socket s with
    | None => Throw TypeError
    | Some h => send_chat h messageText now s
    end in
  match attempt with
  | Normal s' => (s', Fulfilled)
  | Throw e => (console_error (LogSendError e) s, Fulfilled)
  end.

(** [sendChatMessage] after its [await] has rejected: the [catch] block. *)
Definition catch_send (e : JsError) (s : State) : State * Settlement :=
  (console_error (LogSendError e) s, Fulfilled).

(** [sendChatMessage] up to its first suspension, with the state of the
    promise it has returned by then. *)
Definition sendChatMessage (messageText now : string) (s : State) : State * Settlement :=
  match socket s with
  | None => (console_error LogNotInitialized s, Fulfilled)
  | Some h =>
      if negb (is_open h (sockets s)) then
        match waitForOpenConnection messageText s with
        | Normal s' => (s', Pending)
        | Throw e => catch_send e s
        end
      else
        match send_chat h messageText now s with
        | Normal s' => (s', Fulfilled)
        | Throw e => (s, Rejected e)
        end
  end.

Definition bump (t : Timer Callback) : Timer Callback :=
  match t with
  | Interval (PollCb n text) ms => Interval (PollCb (n + 1) text) ms
  | _ => t
  end.

(** The callback of the polling interval [id], and what it does to the
    promise of the [sendChatMessage] call that awaits it. *)
Definition poll_tick (id : positive) (currentAttempt : Z) (messageText now : string)
    (s : State) : State * Settlement :=
  if (currentAttempt >? connectionAttempts - 1)%Z then
    catch_send (Error_max_attempts connectionAttempts) (clearInterval (Some id) s)
  else
    match socket s with
    | Some h =>
        if is_open h (sockets s)
        then resume_send messageText now (clearInterval (Some id) s)
        else (set_timers (alter bump id (timers s)) (nextTimer s) s, Pending)
    | None => (set_timers (alter bump id (timers s)) (nextTimer s) s, Pending)
    end.

Definition updateUsername (now : string) (s : State) : State :=
  if (0 <? String.length (trim (username s)))%nat then sendJoinMessage now s else s.
End Component.

(** *** Events and runs *)

(** What the user and the browser can do to the component.  [now] is the
    text [new Date().toISOString()] returns during the handler, [data] the
    text of an inbound text frame. *)
Inductive Event : Type :=
| ClickConnect                          (* Connect button: initWebSocket *)
| ClickDisconnect                       (* Disconnect button: closeConnection *)
| TypeUsername (name : string)          (* v-model of the name input *)
| ClickUpdateName (now : string)        (* Update name button: updateUsername *)
| SendMessage (text now : string)       (* send-message of the chat panel *)
| WsOpen (h : nat) (now : string)
| WsMessage (h : nat) (data now : string)
| WsError (h : nat)
| WsClose (h : nat)
| Fire (id : positive) (now : string).  (* a timer callback runs *)

(** The browser moves transport [h] to [r] just before it calls the handler. *)
Definition deliver (h : nat) (r : ReadyState) (s : State) : State :=
  set_sockets (alter (set_readyState r) h (sockets s)) s.

Section Run.
Context {P : Platform} {cfg : Config}.

Definition run_callback (id : positive) (cb : Callback) (now : string) (s : State) : State :=
  match cb with
  | PingCb => ping_tick now s
  | ReconnectCb => reconnect_cb s
  | PollCb n text => fst (poll_tick id n text now s)
  end.

(** A timeout is gone once it runs; an interval stays until cleared. *)
Definition fire (id : positive) (now : string) (s : State) : State :=
  match timers s !! id with
  | Some (Interval cb _) => run_callback id cb now s
  | Some (Timeout cb _) => run_callback id cb now (clearInterval (Some id) s)
  | None => s
  end.

(** An event the browser cannot deliver (an open event on a transport
    that is not CONNECTING, a close event on one already CLOSED, a timer
    that is not active) leaves the state alone. *)
Definition step (e : Event) (s : State) : State :=
  match e with
  | ClickConnect => initWebSocket s
  | ClickDisconnect => closeConnection s
  | TypeUsername name => set_username name s
  | ClickUpdateName now => updateUsername now s
  | SendMessage text now => fst (sendChatMessage text now s)
  | WsOpen h now =>
      match readyState_at h (sockets s) with
      | Some CONNECTING => websocketOnOpen now (deliver h OPEN s)
      | _ => s
      end
  | WsMessage h data now =>
      match readyState_at h (sockets s) with
      | Some OPEN | Some CLOSING => websocketOnMessage data now s
      | _ => s
      end
  | WsError h =>
      match readyState_at h (sockets s) with
      | Some CONNECTING | Some OPEN | Some CLOSING => websocketOnError s
      | _ => s
      end
  | WsClose h =>
      match readyState_at h (sockets s) with
      | Some CONNECTING | Some OPEN | Some CLOSING => websocketClose (deliver h CLOSED s)
      | _ => s
      end
  | Fire id now => fire id now s
  end.

Definition run (es : list Event) (s : State) : State :=
  foldl (λ s e, step e s) s es.

(** The gates of the templates: Connect is offered while the status is 0
    or 2; Disconnect, the name input and the chat input while it is 1. *)
Definition offered (s : State) (e : Event) : bool :=
  match e with
  | ClickConnect => ((status s =? 0) || (status s =? 2))%nat
  | ClickDisconnect | TypeUsername _ | ClickUpdateName _ => (status s =? 1)%nat
  | SendMessage text _ => ((status s =? 1)%nat && (0 <? String.length text)%nat)
  | _ => true
  end.

(** A run in which the user only does what the page offers. *)
Fixpoint run_offered (es : list Event) (s : State) : option State :=
  match es with
  | [] => Some s
  | e :: es => if offered s e then run_offered es (step e s) else None
  end.

Inductive reachable : State → Prop :=
| reach_initial guest : reachable (initial guest)
| reach_step e s : reachable s → reachable (step e s).
End Run.

(** [s] with the polling interval of a pending send of [text], [n] polls
    counted, under the next free timer handle. *)
Definition waiting `{Config} (s : State) (text : string) (n : Z) : State :=
  snd (setTimer (Interval (PollCb n text) connectionInterval) s).

(** The spec's command [rename(newName)]: the name input is bound to
    [username] by v-model, so the new name is stored as it is typed, and the
    button then calls [updateUsername]. *)
Definition rename `{Platform} (newName now : string) (s : State) : State :=
  updateUsername now (set_username newName s).

(** The heartbeat timer is active: some ping interval is armed. *)
Definition heartbeat_active (s : State) : Prop :=
  ∃ id ms, timers s !! id = Some (Interval PingCb ms).

(** A reconnect timer is armed under handle [id]. *)
Definition reconnect_armed (id : positive) (tm : gmap positive (Timer Callback)) : Prop :=
  ∃ ms, tm !! id = Some (Timeout ReconnectCb ms).

(** The kinds of the wire message ([ChatMessage.type]). *)
Definition kinds : list string :=
  ["CHAT"; "JOIN"; "LEAVE"; "ERROR"; "USER_COUNT"; "PING"; "PONG"].

(** The kind a decoded payload carries, if it is an object with a string
    under [type]. *)
Definition kind_of (v : JsValue) : option string :=
  match v with
  | JObj fields =>
      match assoc "type" fields with
      | Some (JStr k) => Some k
      | _ => None
      end
  | _ => None
  end.

(** The payload is an object carrying one of the seven kinds. *)
Definition carries_kind (v : JsValue) : bool :=
  match kind_of v with
  | Some k => bool_decide (k ∈ kinds)
  | None => false
  end.


(** The events of a closing transport and of the timers, with messages and
    errors still in flight: everything that can happen without a command of
    the user and without a transport opening. *)
Definition passive (e : Event) : bool :=
  match e with
  | WsClose _ | WsError _ | WsMessage _ _ _ | Fire _ _ => true
  | _ => false
  end.

(** [s'] differs from [s] by nothing that concerns reconnection: same
    status, as many transports, and no reconnect timer that [s] did not
    already have. *)
Definition quiet (s s' : State) : Prop :=
  status s' = status s ∧
  length (sockets s') = length (sockets s) ∧
  ∀ id, reconnect_armed id (timers s') → reconnect_armed id (timers s).

(** What every run maintains: timer handles are handed out in increasing
    order; a ping interval is armed only under the handle stored in
    [pingInterval], and only while the status is 1; the stored transport
    handle is the most recent transport; the status is 0, 1 or 2. *)
Record Inv (s : State) : Prop := {
  inv_fresh : ∀ id t, timers s !! id = Some t → (id < nextTimer s)%positive;
  inv_ping : ∀ id ms, timers s !! id = Some (Interval PingCb ms) →
             pingInterval s = Some id ∧ status s = 1;
  inv_handle : ∀ h, socket s = Some h → S h = length (sockets s);
  inv_status : (status s ≤ 2)%nat;
}.

(** *** The rest of the component *)

(** [toLowerCase] on ASCII text, which is what a build environment holds:
    the letters A to Z move to a to z, every other byte stays. *)
Definition lower_ascii (c : Ascii.ascii) : Ascii.ascii :=
  let n := Ascii.nat_of_ascii c in
  if ((65 <=? n) && (n <=? 90))%nat then Ascii.ascii_of_nat (n + 32) else c.

Fixpoint toLowerCase (value : string) : string :=
  match value with
  | EmptyString => EmptyString
  | String c rest => String (lower_ascii c) (toLowerCase rest)
  end.

(** [parseEnvBool]: [None] is [undefined]; the empty text is falsy too. *)
Definition parseEnvBool (value : option string) : bool :=
  match value with
  | None => false
  | Some v => if String.eqb v "" then false else String.eqb (toLowerCase v) "true"
  end.

(** The computed properties behind the status badge. *)
Definition connectionStatusClass (s : State) : string :=
  match status s with
  | 0 => "disconnected"
  | 1 => "connected"
  | 2 => "closed"
  | _ => "disconnected"
  end.

Definition connectionStatusText (s : State) : string :=
  match status s with
  | 0 => "Disconnected"
  | 1 => "Connected"
  | 2 => "Closed"
  | _ => "Unknown"
  end.


(** The hook [onBeforeUnmount]. *)
Definition onBeforeUnmount (s : State) : State :=
  let s :=
    match socket s with
    | Some h =>
        if (status s =? 1)%nat then set_sockets (ws_close h (sockets s)) s else s
    | None => s
    end in
  clearPingInterval s.

(** The event is an inbound message. *)
Definition is_message (e : Event) : bool :=
  match e with
  | WsMessage _ _ _ => true
  | _ => false
  end.

(** *** What the component puts on the wire *)

(** The three frames the component builds: a chat message, the JOIN
    announcement with its empty body, and the heartbeat. *)
Definition client_frame (f : JsValue) : Prop :=
  ∃ name text timestamp,
    f = wire_message "CHAT" name text timestamp ∨
    f = wire_message "JOIN" name "" timestamp ∨
    f = wire_message "PING" "System" "ping" timestamp.

(** The log holds no message of a kind the classifier withholds. *)
Definition loggable (v : JsValue) : Prop :=
  kind_of v ≠ Some "PONG" ∧ kind_of v ≠ Some "USER_COUNT".

End HomeView.

(** ** The service class *)

Module Service.

Inductive Callback : Type :=
| HeartbeatCb
| ReconnectCb.

(** Console lines of the class, and exceptions that escape a handler. *)
Inductive ConsoleLine : Type :=
| LogError                      (* console.log(e) of onerror *)
| LogClose                      (* console.error(e) of onClose *)
| LogUncaught (e : JsError).

(** The fields of a [Websocket] instance, then the browser state.
    [delivered] lists the values passed to [this.callback], oldest first. *)
Record State : Type := {
  url : string;
  ws : option nat;
  status : nat;                           (* 0-closed 1-connected 2-manually closed *)
  ping : Z;
  pingInterval : option positive;
  reconnect : Z;
  sockets : list WebSocketObj;
  timers : gmap positive (Timer Callback);
  nextTimer : positive;
  delivered : list JsValue;
  console : list ConsoleLine;
}.

(** [new Websocket(url, callback)]. *)
Definition constructor (u : string) : State :=
  {| url := u; ws := None; status := 0; ping := 10000; pingInterval := None;
     reconnect := 5000; sockets := []; timers := ∅; nextTimer := 1%positive;
     delivered := []; console := [] |}.

Definition set_ws (v : option nat) (s : State) : State :=
  {| url := url s; ws := v; status := status s; ping := ping s;
     pingInterval := pingInterval s; reconnect := reconnect s;
     sockets := sockets s; timers := timers s; nextTimer := nextTimer s;
     delivered := delivered s; console := console s |}.

Definition set_status (v : nat) (s : State) : State :=
  {| url := url s; ws := ws s; status := v; ping := ping s;
     pingInterval := pingInterval s; reconnect := reconnect s;
     sockets := sockets s; timers := timers s; nextTimer := nextTimer s;
     delivered := delivered s; console := console s |}.

Definition set_pingInterval (v : option positive) (s : State) : State :=
  {| url := url s; ws := ws s; status := status s; ping := ping s;
     pingInterval := v; reconnect := reconnect s;
     sockets := sockets s; timers := timers s; nextTimer := nextTimer s;
     delivered := delivered s; console := console s |}.

Definition set_sockets (v : list WebSocketObj) (s : State) : State :=
  {| url := url s; ws := ws s; status := status s; ping := ping s;
     pingInterval := pingInterval s; reconnect := reconnect s;
     sockets := v; timers := timers s; nextTimer := nextTimer s;
     delivered := delivered s; console := console s |}.

Definition set_timers (v : gmap positive (Timer Callback)) (n : positive) (s : State) : State :=
  {| url := url s; ws := ws s; status := status s; ping := ping s;
     pingInterval := pingInterval s; reconnect := reconnect s;
     sockets := sockets s; timers := v; nextTimer := n;
     delivered := delivered s; console := console s |}.

Definition set_delivered (v : list JsValue) (s : State) : State :=
  {| url := url s; ws := ws s; status := status s; ping := ping s;
     pingInterval := pingInterval s; reconnect := reconnect s;
     sockets := sockets s; timers := timers s; nextTimer := nextTimer s;
     delivered := v; console := console s |}.

Definition console_line (l : ConsoleLine) (s : State) : State :=
  {| url := url s; ws := ws s; status := status s; ping := ping s;
     pingInterval := pingInterval s; reconnect := reconnect s;
     sockets := sockets s; timers := timers s; nextTimer := nextTimer s;
     delivered := delivered s; console := console s ++ [l] |}.

Definition setTimer (t : Timer Callback) (s : State) : positive * State :=
  let '(tm, n) := arm t (timers s) (nextTimer s) in (nextTimer s, set_timers tm n s).

Definition clearInterval (id : option positive) (s : State) : State :=
  set_timers (disarm id (timers s)) (nextTimer s) s.

Definition connect (s : State) : State :=
  set_ws (Some (length (sockets s)))
    (set_sockets (sockets s ++ [new_WebSocket (url s)]) s).

Definition heartHandler (s : State) : State :=
  let '(id, s) := setTimer (Interval HeartbeatCb (ping s)) s in
  set_pingInterval (Some id) s.

(** The callback of the heartbeat interval; its frame is [{type: 0}]. *)
Definition heartbeat_tick (s : State) : State :=
  if (status s =? 1)%nat then
    let sending :=
      match ws s with
      | None => Throw TypeError
      | Some h => ws_send h (JObj [("type", JNum PrimFloat.zero)]) (sockets s)
      end in
    match sending with
    | Normal l => set_sockets l s
    | Throw e => console_line (LogUncaught e) s
    end
  else clearInterval (pingInterval s) s.

Definition onopen (s : State) : State :=
  heartHandler (set_status 1 s).

Definition onmessage `{Platform} (e_data : string) (s : State) : State :=
  match JSON_parse e_data with
  | Some v => set_delivered (delivered s ++ [v]) s
  | None => console_line (LogUncaught SyntaxError) s
  end.

Definition onerror (s : State) : State :=
  console_line LogError s.

(** The callback of the reconnect timeout. *)
Definition reconnect_cb (s : State) : State :=
  if (status s =? 0)%nat then connect s else s.

Definition onClose (s : State) : State :=
  let s := console_line LogClose s in
  let s := set_status (if (status s =? 2)%nat then status s else 0) s in
  snd (setTimer (Timeout ReconnectCb (reconnect s)) s).

(** [send] and [close] can throw to their caller: the state they leave,
    and the exception if any. *)
Definition send (data : JsValue) (s : State) : State * option JsError :=
  match ws s with
  | None => (s, Some TypeError)
  | Some h =>
      match ws_send h data (sockets s) with
      | Normal l => (set_sockets l s, None)
      | Throw e => (s, Some e)
      end
  end.

Definition close (s : State) : State * option JsError :=
  let s := set_status 2 s in
  match ws s with
  | None => (s, Some TypeError)
  | Some h => (set_sockets (ws_close h (sockets s)) s, None)
  end.

Inductive Event : Type :=
| Connect
| Send (data : JsValue)
| Close
| WsOpen (h : nat)
| WsMessage (h : nat) (data : string)
| WsError (h : nat)
| WsClose (h : nat)
| Fire (id : positive).

Definition deliver (h : nat) (r : ReadyState) (s : State) : State :=
  set_sockets (alter (set_readyState r) h (sockets s)) s.

Definition run_callback (cb : Callback) (s : State) : State :=
  match cb with
  | HeartbeatCb => heartbeat_tick s
  | ReconnectCb => reconnect_cb s
  end.

Definition fire (id : positive) (s : State) : State :=
  match timers s !! id with
  | Some (Interval cb _) => run_callback cb s
  | Some (Timeout cb _) => run_callback cb (clearInterval (Some id) s)
  | None => s
  end.

Definition step `{Platform} (e : Event) (s : State) : State :=
  match e with
  | Connect => connect s
  | Send data => fst (send data s)
  | Close => fst (close s)
  | WsOpen h =>
      match readyState_at h (sockets s) with
      | Some CONNECTING => onopen (deliver h OPEN s)
      | _ => s
      end
  | WsMessage h data =>
      match readyState_at h (sockets s) with
      | Some OPEN | Some CLOSING => onmessage data s
      | _ => s
      end
  | WsError h =>
      match readyState_at h (sockets s) with
      | Some CONNECTING | Some OPEN | Some CLOSING => onerror s
      | _ => s
      end
  | WsClose h =>
      match readyState_at h (sockets s) with
      | Some CONNECTING | Some OPEN | Some CLOSING => onClose (deliver h CLOSED s)
      | _ => s
      end
  | Fire id => fire id s
  end.

Definition run `{Platform} (es : list Event) (s : State) : State :=
  foldl (λ s e, step e s) s es.

Definition heartbeat_active (s : State) : Prop :=
  ∃ id ms, timers s !! id = Some (Interval HeartbeatCb ms).

Definition quiet (s s' : State) : Prop :=
  status s' = status s ∧ length (sockets s') = length (sockets s).

(** Events that are neither a call of the owner nor a transport opening. *)
Definition passive (e : Event) : bool :=
  match e with
  | WsClose _ | WsError _ | WsMessage _ _ | Fire _ => true
  | _ => false
  end.

(** The instance was constructed for [u] and has been used since: its
    configuration is untouched, every transport it opened goes to [u], and
    the stored transport is the most recent one. *)
Record Inv (u : string) (s : State) : Prop := {
  inv_url : url s = u;
  inv_ping_ms : ping s = 10000%Z;
  inv_reconnect_ms : reconnect s = 5000%Z;
  inv_transports : Forall (λ w, WebSocket.url w = u) (sockets s);
  inv_ws : ∀ h, ws s = Some h → S h = length (sockets s);
  inv_status : (status s ≤ 2)%nat;
}.

End Service.

(** ** The chat panel *)

Module ChatClient.

(** [send] of the panel, on the prop [status] and the local ref
    [messageInput]: the new content of the input, and the text emitted with
    [send-message], if any. *)
Definition send (status : nat) (messageInput : string) : string * option string :=
  if ((0 <? String.length messageInput)%nat && (status =? 1)%nat)%bool
  then ("", Some messageInput)
  else (messageInput, None).

End ChatClient.

(** The view binds [send-message] of the panel to [sendChatMessage] and
    passes its own [status] down as the prop. *)
Definition panel_send `{HomeView.Config} (messageInput now : string) (s : HomeView.State)
  : string * HomeView.State :=
  match ChatClient.send (HomeView.status s) messageInput with
  | (input, Some text) => (input, fst (HomeView.sendChatMessage text now s))
  | (input, None) => (input, s)
  end.

(** ** What an event can do to the transports *)

(** One change to the list of transports: a frame satisfying [F] handed to
    [send], a [close()], a state change delivered by the browser, or a new
    transport to [u]. *)
Inductive wire_op (F : JsValue → Prop) (u : string)
  : list WebSocketObj → list WebSocketObj → Prop :=
| op_send h f l l' : F f → ws_send h f l = Normal l' → wire_op F u l l'
| op_close h l : wire_op F u l (ws_close h l)
| op_deliver h r l : wire_op F u l (alter (set_readyState r) h l)
| op_new l : wire_op F u l (l ++ [new_WebSocket u]).

(** [l'] keeps every transport of [l] under its handle, with its URL and
    with the frames already sent still at the front. *)
Definition wire_extends (l l' : list WebSocketObj) : Prop :=
  ∀ h w, l !! h = Some w →
    ∃ w', l' !! h = Some w' ∧ url w' = url w ∧ sent w `prefix_of` sent w'.

(** ** A platform and a configuration for the worked examples *)

Module Sample.

(** The double-quote character, and JSON texts built with it. *)
Definition dq : string := String (Ascii.ascii_of_nat 34) EmptyString.
Definition q (s : string) : string := dq +:+ s +:+ dq.
Definition field (k v : string) : string := q k +:+ ":" +:+ q v.

(** The text [{"type":T,"name":N,"message":M,"timestamp":TS}]. *)
Definition wire_text (type name message timestamp : string) : string :=
  "{" +:+ field "type" type +:+ "," +:+ field "name" name +:+ "," +:+
  field "message" message +:+ "," +:+ field "timestamp" timestamp +:+ "}".

Definition PING_text : string := wire_text "PING" "Server" "ping" "2025-01-01T00:00:00.000Z".
Definition PONG_text : string := wire_text "PONG" "System" "pong" "2025-01-01T00:00:00.000Z".
Definition USER_COUNT_text : string := wire_text "USER_COUNT" "System" "5" "2025-01-01T00:00:00.000Z".
Definition CHAT_text : string := wire_text "CHAT" "Ann" "hi" "2025-01-01T00:00:00.000Z".

Definition five : float := 5%float.

(** [JSON.parse] on the payloads of the examples; every other text is
    treated as not being JSON. *)
Definition parse_table : list (string * JsValue) :=
  [ (PING_text, HomeView.wire_message "PING" "Server" "ping" "2025-01-01T00:00:00.000Z");
    (PONG_text, HomeView.wire_message "PONG" "System" "pong" "2025-01-01T00:00:00.000Z");
    (USER_COUNT_text, HomeView.wire_message "USER_COUNT" "System" "5" "2025-01-01T00:00:00.000Z");
    (CHAT_text, HomeView.wire_message "CHAT" "Ann" "hi" "2025-01-01T00:00:00.000Z");
    ("null", JNull);
    ("5", JNum five);
    ("true", JBool true);
    (q "hello", JStr "hello");
    ("[]", JArr []);
    ("{}", JObj []) ].

(** [parseInt] on the message bodies of the examples; NaN elsewhere. *)
Definition parseInt_table (m : option JsValue) : float :=
  match m with
  | Some (JStr "5") => five
  | _ => PrimFloat.nan
  end.

Definition is_space (c : Ascii.ascii) : bool :=
  let n := Ascii.nat_of_ascii c in
  ((n =? 32) || ((9 <=? n) && (n <=? 13)))%nat.

Fixpoint drop_spaces (l : list Ascii.ascii) : list Ascii.ascii :=
  match l with
  | c :: l' => if is_space c then drop_spaces l' else l
  | [] => []
  end.

(** [trim] for ASCII white space. *)
Definition trim_ascii (s : string) : string :=
  String.string_of_list_ascii
    (rev (drop_spaces (rev (drop_spaces (String.list_ascii_of_string s))))).

Definition platform : Platform :=
  {| JSON_parse := λ text, assoc text parse_table;
     parseInt := parseInt_table;
     trim := trim_ascii |}.

(** The defaults of [CONFIG], on a page served from http://localhost:5173. *)
Definition config : HomeView.Config :=
  {| HomeView.isIntegrated := false;
     HomeView.protocol := "ws";
     HomeView.secureProtocol := "wss";
     HomeView.host := "localhost";
     HomeView.port := "8080";
     HomeView.endpoint := "/chat";
     HomeView.reconnectTimeout := 5000;
     HomeView.pingInterval_ms := 10000;
     HomeView.connectionAttempts := 10;
     HomeView.connectionInterval := 200;
     HomeView.location_protocol := "http:";
     HomeView.location_hostname := "localhost";
     HomeView.location_port := "5173" |}.

Definition t0 : string := "2025-01-01T00:00:01.000Z".
Definition guest : string := "Guest-1".

#[local] Existing Instance platform.
#[local] Existing Instance config.

(** States of the view component the examples start from. *)

(** Connect clicked once: transport 0 is mid-handshake, the status still 0. *)
Definition connecting : HomeView.State :=
  HomeView.run [HomeView.ClickConnect] (HomeView.initial guest).

(** Transport 0 has opened: status 1, heartbeat armed, JOIN sent. *)
Definition connected : HomeView.State :=
  HomeView.run [HomeView.ClickConnect; HomeView.WsOpen 0 t0] (HomeView.initial guest).

(** Connect clicked twice before the first transport opened, then transport
    0 opens: the status is 1 while the stored transport 1 is mid-handshake. *)
Definition double_connect : list HomeView.Event :=
  [HomeView.ClickConnect; HomeView.ClickConnect; HomeView.WsOpen 0 t0].
Definition connected_elsewhere : HomeView.State :=
  HomeView.run double_connect (HomeView.initial guest).

(** Connected, then disconnected by the user; transport 0 is closing. *)
Definition disconnected : HomeView.State :=
  HomeView.run [HomeView.ClickConnect; HomeView.WsOpen 0 t0; HomeView.ClickDisconnect]
    (HomeView.initial guest).

(** The second transport opens and is disconnected; then the first one,
    still mid-handshake until now, opens; then the heartbeat fires. *)
Definition late_open : list HomeView.Event :=
  [HomeView.ClickConnect; HomeView.ClickConnect; HomeView.WsOpen 1 t0;
   HomeView.ClickDisconnect; HomeView.WsOpen 0 t0; HomeView.Fire 2 t0].

(** The user reconnects right after disconnecting, and the close event of
    the old transport arrives after the new transport has opened. *)
Definition late_close : list HomeView.Event :=
  [HomeView.ClickConnect; HomeView.WsOpen 0 t0; HomeView.ClickDisconnect;
   HomeView.ClickConnect; HomeView.WsOpen 1 t0; HomeView.WsClose 0].

(** The connection drops, the user clicks Connect during the reconnect
    delay, and the reconnect timeout (handle 2) fires before the new
    transport has opened. *)
Definition early_reconnect : list HomeView.Event :=
  [HomeView.ClickConnect; HomeView.WsOpen 0 t0; HomeView.WsClose 0;
   HomeView.ClickConnect; HomeView.Fire 2 t0].

(** The service class: connected, then [close()] called by its owner. *)
Definition service_closing : Service.State :=
  Service.run [Service.Connect; Service.WsOpen 0; Service.Close]
    (Service.constructor "ws://localhost:8080/chat").

(** The service class with two transports opened one after the other, then
    closed by its owner: two heartbeat intervals, handles 1 and 2. *)
(** The connection has dropped: transport 0 is closed, the reconnect
    timeout waits under handle 2. *)
Definition after_drop : HomeView.State :=
  HomeView.run [HomeView.ClickConnect; HomeView.WsOpen 0 t0; HomeView.WsClose 0]
    (HomeView.initial guest).



(** The same configuration on a page served from another host. *)
Definition config_elsewhere : HomeView.Config :=
  {| HomeView.isIntegrated := false;
     HomeView.protocol := "ws";
     HomeView.secureProtocol := "wss";
     HomeView.host := "localhost";
     HomeView.port := "8080";
     HomeView.endpoint := "/chat";
     HomeView.reconnectTimeout := 5000;
     HomeView.pingInterval_ms := 10000;
     HomeView.connectionAttempts := 10;
     HomeView.connectionInterval := 200;
     HomeView.location_protocol := "http:";
     HomeView.location_hostname := "example.org";
     HomeView.location_port := "8443" |}.

Definition service_two_heartbeats : Service.State :=
  Service.run [Service.Connect; Service.WsOpen 0; Service.Connect; Service.WsOpen 1;
               Service.Close]
    (Service.constructor "ws://localhost:8080/chat").

End Sample.

(** * Properties of the view component *)

(** ** The message classifier *)

Section Classifier.
Import HomeView.
Context {P : Platform}.

Lemma is_string_kind (k : string) (fields : list (string * JsValue)) (k' : string) :
  kind_of (JObj fields) = Some k' →
  is_string k (assoc "type" fields) = bool_decide (k' = k).
Proof.
  unfold kind_of. destruct (assoc "type" fields) as [[]|]; try discriminate.
  intros [= ->]. simpl. destruct (String.eqb_spec k' k) as [->|Hne].
  - by rewrite bool_decide_eq_true_2.
  - by rewrite bool_decide_eq_false_2.
Qed.

Lemma is_string_no_kind (k : string) (fields : list (string * JsValue)) :
  kind_of (JObj fields) = None → is_string k (assoc "type" fields) = false.
Proof.
  unfold kind_of. by destruct (assoc "type" fields) as [[]|].
Qed.

Lemma kind_of_object (v : JsValue) (k : string) :
  kind_of v = Some k → ∃ fields, v = JObj fields.
Proof. destruct v; try discriminate. eauto. Qed.

(** A value that is not an object with kind PONG or USER_COUNT takes the
    default branch of the switch, unless it is null. *)
Lemma handle_data_default (v : JsValue) (s : State) :
  v ≠ JNull → kind_of v ≠ Some "PONG" → kind_of v ≠ Some "USER_COUNT" →
  handle_data v s = Normal (set_messages (messages s ++ [v]) s).
Proof.
  intros Hnull Hpong Hcount. unfold handle_data.
  destruct v as [| b | n | str | items | fields]; simpl; try done.
  destruct (kind_of (JObj fields)) as [k|] eqn:Hk.
  - rewrite !(is_string_kind _ _ _ Hk).
    rewrite !bool_decide_eq_false_2; [done | congruence | congruence].
  - by rewrite !(is_string_no_kind _ _ Hk).
Qed.

(** C9.  A payload that [JSON.parse] rejects adds exactly one entry at the
    end of the message log: the object with name System, the raw payload
    as message, the current time as timestamp and type CHAT.  The handler
    completes normally, reports nothing on the error console, and no other
    part of the state changes. *)
Theorem malformed_payload_fallback (e_data now : string) (s : State) :
  JSON_parse e_data = None →
  messages (websocketOnMessage e_data now s)
    = (messages s ++
       [JObj [("name", JStr "System"); ("message", JStr e_data);
              ("timestamp", JStr now); ("type", JStr "CHAT")]])%list ∧
  length (messages (websocketOnMessage e_data now s)) = S (length (messages s)) ∧
  (∀ entry, last (messages (websocketOnMessage e_data now s)) = Some entry →
     member "name" entry = Normal (Some (JStr "System")) ∧
     member "message" entry = Normal (Some (JStr e_data)) ∧
     member "type" entry = Normal (Some (JStr "CHAT")) ∧
     member "timestamp" entry = Normal (Some (JStr now))) ∧
  console (websocketOnMessage e_data now s) = console s ∧
  socket (websocketOnMessage e_data now s) = socket s ∧
  status (websocketOnMessage e_data now s) = status s ∧
  pingInterval (websocketOnMessage e_data now s) = pingInterval s ∧
  username (websocketOnMessage e_data now s) = username s ∧
  userCount (websocketOnMessage e_data now s) = userCount s ∧
  sockets (websocketOnMessage e_data now s) = sockets s ∧
  timers (websocketOnMessage e_data now s) = timers s ∧
  nextTimer (websocketOnMessage e_data now s) = nextTimer s.
Proof.
  intros Hparse. unfold websocketOnMessage. rewrite Hparse. simpl.
  repeat match goal with |- _ ∧ _ => split end; try done.
  - rewrite length_app. simpl. lia.
  - intros entry. rewrite last_snoc. by intros [= <-].
Qed.

(** C10, as amended.  A payload that parses, but not to an object
    carrying one of the seven kinds, is appended to the log as parsed,
    with one exception: the payload [null].  Reading [type] from null
    throws inside the [try] block, so null gets the System fallback. *)
Theorem unrecognized_value_logged (e_data now : string) (v : JsValue) (s : State) :
  JSON_parse e_data = Some v →
  carries_kind v = false →
  websocketOnMessage e_data now s =
    set_messages
      (messages s ++ [match v with JNull => system_message e_data now | _ => v end]) s.
Proof.
  intros Hparse Hkind. unfold websocketOnMessage. rewrite Hparse.
  assert (v ≠ JNull → handle_data v s = Normal (set_messages (messages s ++ [v]) s))
    as Hdefault.
  { intros Hnull. apply handle_data_default; [done | |];
      intros Hk; unfold carries_kind in Hkind; rewrite Hk in Hkind;
      by vm_compute in Hkind. }
  destruct v; [done | by rewrite Hdefault ..].
Qed.

End Classifier.

(** ** Transports keep their number *)

Lemma ws_send_length (h : nat) (f : JsValue) (l l' : list WebSocketObj) :
  ws_send h f l = Normal l' → length l' = length l.
Proof.
  unfold ws_send. destruct (l !! h) as [w|]; [|done].
  destruct (readyState w); intros [= <-]; by rewrite ?length_insert.
Qed.

Lemma ws_close_length (h : nat) (l : list WebSocketObj) :
  length (ws_close h l) = length l.
Proof.
  unfold ws_close. destruct (l !! h) as [w|]; [|done].
  destruct (readyState w); by rewrite ?length_insert.
Qed.

Lemma ws_send_open (h : nat) (f : JsValue) (l : list WebSocketObj) :
  is_open h l = true →
  ∃ w, l !! h = Some w ∧ readyState w = OPEN ∧
       ws_send h f l = Normal (<[h := push_frame f w]> l).
Proof.
  unfold is_open, readyState_at, ws_send. intros Hopen.
  apply bool_decide_eq_true_1 in Hopen.
  destruct (l !! h) as [w|]; [|done]. simpl in Hopen.
  injection Hopen as Hopen. exists w. by rewrite Hopen.
Qed.

Lemma live_count_new (l : list WebSocketObj) (u : string) :
  live_count (l ++ [new_WebSocket u]) = S (live_count l).
Proof.
  unfold live_count. rewrite filter_app, length_app.
  change (filter _ [new_WebSocket u]) with [new_WebSocket u]. simpl. lia.
Qed.

(** ** The invariant of the view component *)

Section Invariant.
Import HomeView.
Context {P : Platform} {cfg : Config}.

Ltac map_cases :=
  repeat match goal with
  | H : <[_:=_]> _ !! _ = Some _ |- _ =>
      apply lookup_insert_Some in H as [[? ?]|[? ?]]
  | H : delete _ _ !! _ = Some _ |- _ =>
      apply lookup_delete_Some in H as [? ?]
  | H : alter _ _ _ !! _ = Some _ |- _ =>
      apply lookup_alter_Some in H as [(? & ? & ? & ?)|[? ?]]
  end.

Ltac inv_intro s :=
  destruct s as [sock st msgs pi un uc socks tm nt co];
  intros [Hfresh Hping Hhandle Hstatus]; simpl in *.

(** The three ways a case about an armed timer is closed: the handle is
    older than the next one, or a ping interval contradicts the stored
    handle, or it follows from the hypotheses as they are. *)
Ltac inv_close Hfresh Hping :=
  first
    [ done
    | lia
    | match goal with
      | H : _ !! _ = Some (Interval PingCb _) |- _ =>
          destruct (Hping _ _ H) as [? ?]; congruence
      end
    | match goal with
      | H : _ !! _ = Some _ |- _ => apply Hfresh in H; lia
      end
    | eauto ].

Lemma Inv_initial (guest : string) : Inv (initial guest).
Proof. split; simpl; intros; simplify_map_eq; lia. Qed.

Lemma Inv_initWebSocket (s : State) : Inv s → Inv (initWebSocket s).
Proof.
  inv_intro s. split; simpl; eauto.
  intros h [= <-]. rewrite length_app. simpl. lia.
Qed.

Lemma Inv_clearInterval (id : positive) (s : State) :
  Inv s → Inv (clearInterval (Some id) s).
Proof. inv_intro s. split; simpl; intros; map_cases; eauto. Qed.

Lemma Inv_clearPingInterval (s : State) : Inv s → Inv (clearPingInterval s).
Proof.
  inv_intro s. unfold clearPingInterval; simpl.
  destruct pi as [id|]; split; simpl; intros; map_cases; inv_close Hfresh Hping.
Qed.

Lemma clearPingInterval_inactive (s : State) :
  Inv s → ¬ heartbeat_active (clearPingInterval s).
Proof.
  inv_intro s. unfold clearPingInterval, heartbeat_active; simpl.
  destruct pi as [id|]; simpl; intros (id' & ms & H); map_cases;
    inv_close Hfresh Hping.
Qed.

Lemma Inv_startPingInterval (s : State) :
  Inv s → status s = 1 → Inv (startPingInterval s).
Proof.
  inv_intro s. intros ->. unfold startPingInterval; simpl.
  destruct pi as [id|]; split; simpl; intros; map_cases; simplify_eq;
    inv_close Hfresh Hping.
Qed.

Lemma Inv_sockets (l : list WebSocketObj) (s : State) :
  length l = length (sockets s) → Inv s → Inv (set_sockets l s).
Proof.
  intros Hlen. inv_intro s. split; simpl; eauto.
  intros h Hh. rewrite Hlen. eauto.
Qed.

Lemma Inv_console (e : ConsoleError) (s : State) : Inv s → Inv (console_error e s).
Proof. inv_intro s. split; simpl; eauto. Qed.

Lemma Inv_messages (m : list JsValue) (s : State) : Inv s → Inv (set_messages m s).
Proof. inv_intro s. split; simpl; eauto. Qed.

Lemma Inv_userCount (n : float) (s : State) : Inv s → Inv (set_userCount n s).
Proof. inv_intro s. split; simpl; eauto. Qed.

Lemma Inv_username (n : string) (s : State) : Inv s → Inv (set_username n s).
Proof. inv_intro s. split; simpl; eauto. Qed.

Lemma Inv_deliver (h : nat) (r : ReadyState) (s : State) : Inv s → Inv (deliver h r s).
Proof. intros. apply Inv_sockets; [|done]. by rewrite length_alter. Qed.

Lemma Inv_setTimer (t : Timer Callback) (s : State) :
  (∀ ms, t ≠ Interval PingCb ms) → Inv s → Inv (snd (setTimer t s)).
Proof.
  intros Ht. inv_intro s.
  split; simpl; intros; map_cases; simplify_eq; try inv_close Hfresh Hping.
  exfalso. by eapply Ht.
Qed.

Lemma Inv_bump (id : positive) (s : State) :
  Inv s → Inv (set_timers (alter bump id (timers s)) (nextTimer s) s).
Proof.
  inv_intro s. split; simpl; intros; map_cases; simplify_eq; eauto.
  match goal with
  | H : Interval PingCb _ = bump ?x |- _ =>
      destruct x as [[]|]; simpl in H; simplify_eq; eauto
  end.
Qed.

Lemma Inv_sendJoinMessage (now : string) (s : State) :
  Inv s → Inv (sendJoinMessage now s).
Proof.
  intros HI. unfold sendJoinMessage.
  destruct (socket s) as [h|]; [|done].
  destruct (is_open h (sockets s)); simpl; [|done].
  destruct (ws_send _ _ _) as [l|] eqn:Hs; [|done].
  apply Inv_sockets; [|done]. eauto using ws_send_length.
Qed.

Lemma Inv_websocketOnOpen (now : string) (s : State) :
  Inv s → Inv (websocketOnOpen now s).
Proof.
  intros HI. unfold websocketOnOpen.
  apply Inv_sendJoinMessage, Inv_startPingInterval; [|done].
  revert HI. inv_intro s. split; simpl; eauto.
  intros. split; [|done]. by eapply Hping.
Qed.

Lemma Inv_ping_tick (now : string) (s : State) : Inv s → Inv (ping_tick now s).
Proof.
  intros HI. unfold ping_tick.
  destruct (socket s) as [h|]; [|by apply Inv_clearPingInterval].
  destruct (status s =? 1)%nat; [|by apply Inv_clearPingInterval].
  destruct (ws_send _ _ _) as [l|] eqn:Hs.
  - apply Inv_sockets; [|done]. eauto using ws_send_length.
  - by apply Inv_console.
Qed.

Lemma Inv_websocketOnMessage (data now : string) (s : State) :
  Inv s → Inv (websocketOnMessage data now s).
Proof.
  intros HI. unfold websocketOnMessage.
  destruct (JSON_parse data) as [v|]; [|by apply Inv_messages].
  unfold handle_data. destruct (member "type" v) as [ty|]; [|by apply Inv_messages].
  destruct (is_string "PONG" ty); [done|].
  destruct (is_string "USER_COUNT" ty); [|by apply Inv_messages].
  destruct (member "message" v); [by apply Inv_userCount | by apply Inv_messages].
Qed.

Lemma Inv_websocketClose (s : State) : Inv s → Inv (websocketClose s).
Proof.
  intros HI. unfold websocketClose.
  pose proof (clearPingInterval_inactive s HI) as Hoff.
  apply Inv_clearPingInterval in HI. revert HI Hoff.
  generalize (clearPingInterval s). clear s. intros s.
  inv_intro s. unfold heartbeat_active; simpl. intros Hoff.
  destruct (st =? 2)%nat; split; simpl; intros; map_cases; simplify_eq;
    try inv_close Hfresh Hping; exfalso; eauto.
Qed.

Lemma Inv_reconnect_cb (s : State) : Inv s → Inv (reconnect_cb s).
Proof.
  intros HI. unfold reconnect_cb.
  destruct (status s =? 0)%nat; [by apply Inv_initWebSocket | done].
Qed.

Lemma Inv_closeConnection (s : State) : Inv s → Inv (closeConnection s).
Proof.
  inv_intro s. unfold closeConnection, clearPingInterval; simpl.
  destruct sock as [h|]; [|by split].
  destruct pi as [id|]; split; simpl; intros; map_cases; simplify_eq;
    inv_close Hfresh Hping.
Qed.

Lemma Inv_resume_send (text now : string) (s : State) :
  Inv s → Inv (fst (resume_send text now s)).
Proof.
  intros HI. unfold resume_send, send_chat.
  destruct (socket s) as [h|]; [|by apply Inv_console].
  destruct (ws_send _ _ _) as [l|] eqn:Hs; simpl; [|by apply Inv_console].
  apply Inv_sockets; [|done]. eauto using ws_send_length.
Qed.

Lemma Inv_sendChatMessage (text now : string) (s : State) :
  Inv s → Inv (fst (sendChatMessage text now s)).
Proof.
  intros HI. unfold sendChatMessage, waitForOpenConnection, send_chat.
  destruct (socket s) as [h|]; [|by apply Inv_console].
  destruct (is_open h (sockets s)); simpl.
  - destruct (ws_send _ _ _) as [l|] eqn:Hs; simpl; [|done].
    apply Inv_sockets; [|done]. eauto using ws_send_length.
  - by apply Inv_setTimer.
Qed.

Lemma Inv_poll_tick (id : positive) (n : Z) (text now : string) (s : State) :
  Inv s → Inv (fst (poll_tick id n text now s)).
Proof.
  intros HI. unfold poll_tick, catch_send.
  destruct (n >? connectionAttempts - 1)%Z; simpl.
  { by apply Inv_console, Inv_clearInterval. }
  destruct (socket s) as [h|] eqn:Hsock; [|by apply Inv_bump].
  destruct (is_open h (sockets s)); [|by apply Inv_bump].
  by apply Inv_resume_send, Inv_clearInterval.
Qed.

Lemma Inv_updateUsername (now : string) (s : State) :
  Inv s → Inv (updateUsername now s).
Proof.
  intros HI. unfold updateUsername.
  destruct (0 <? _)%nat; [by apply Inv_sendJoinMessage | done].
Qed.

Lemma Inv_run_callback (id : positive) (cb : Callback) (now : string) (s : State) :
  Inv s → Inv (run_callback id cb now s).
Proof.
  destruct cb; simpl; eauto using Inv_ping_tick, Inv_reconnect_cb, Inv_poll_tick.
Qed.

Lemma Inv_step (e : Event) (s : State) : Inv s → Inv (step e s).
Proof.
  intros HI. destruct e; simpl;
    eauto using Inv_initWebSocket, Inv_closeConnection, Inv_username,
      Inv_updateUsername, Inv_sendChatMessage.
  - destruct (readyState_at h (sockets s)) as [[]|];
      eauto using Inv_websocketOnOpen, Inv_deliver.
  - destruct (readyState_at h (sockets s)) as [[]|];
      eauto using Inv_websocketOnMessage.
  - destruct (readyState_at h (sockets s)) as [[]|]; eauto using Inv_console.
  - destruct (readyState_at h (sockets s)) as [[]|];
      eauto using Inv_websocketClose, Inv_deliver.
  - unfold fire. destruct (timers s !! id) as [[]|];
      eauto using Inv_run_callback, Inv_clearInterval.
Qed.

Lemma reachable_Inv (s : State) : reachable s → Inv s.
Proof. induction 1; eauto using Inv_initial, Inv_step. Qed.


Lemma nextTimer_free (s : State) : Inv s → timers s !! nextTimer s = None.
Proof.
  intros HI. destruct (timers s !! nextTimer s) as [t|] eqn:H; [|done].
  apply (inv_fresh s HI) in H. lia.
Qed.
End Invariant.

(** ** Commands of the user *)

Section Commands.
Import HomeView.
Context {P : Platform} {cfg : Config}.

(** C1, as amended.  [connect()] has no guard: in every state, Connected
    or mid-handshake included, it creates exactly one new transport in
    state CONNECTING, stores its handle in place of the previous one, and
    leaves every other part of the state, the status included, as it was;
    the previous transport is neither closed nor changed, so the number of
    live transports grows by one.  What does hold in every reachable state
    is that the stored handle, if any, is the most recent transport.  The
    page offers Connect exactly while the status is not Connected.  The
    service class behaves alike. *)
Theorem connect_opens_new_transport (s : State) :
  reachable s →
  socket (initWebSocket s) = Some (length (sockets s)) ∧
  sockets (initWebSocket s) = (sockets s ++ [new_WebSocket getWebSocketUrl])%list ∧
  live_count (sockets (initWebSocket s)) = S (live_count (sockets s)) ∧
  set_socket (socket s) (set_sockets (sockets s) (initWebSocket s)) = s ∧
  (∀ h, socket s = Some h → S h = length (sockets s)) ∧
  offered s ClickConnect = negb (status s =? 1)%nat ∧
  (∀ t : Service.State,
     Service.ws (Service.connect t) = Some (length (Service.sockets t)) ∧
     live_count (Service.sockets (Service.connect t)) =
       S (live_count (Service.sockets t)) ∧
     Service.status (Service.connect t) = Service.status t).
Proof.
  intros Hreach. apply reachable_Inv in Hreach.
  repeat split.
  - apply live_count_new.
  - by destruct s.
  - apply (inv_handle s Hreach).
  - pose proof (inv_status s Hreach). simpl.
    destruct (status s) as [|[|[|n]]]; simpl; [done | done | done | lia].
  - apply live_count_new.
Qed.

(** C7, as amended.  With no transport at all, [send(text)] is over at
    once and sends nothing, but it does not fail towards its caller: the
    view writes the one line 'WebSocket is not initialized' to the error
    console and returns normally, its promise fulfilled; the message log,
    the user count, the transports with their frames, the timers and every
    other part of the state are unchanged.  The service class throws to
    its caller, a TypeError, and changes nothing. *)
Theorem send_without_transport (text now : string) (s : State) :
  socket s = None →
  sendChatMessage text now s = (console_error LogNotInitialized s, Fulfilled) ∧
  messages (fst (sendChatMessage text now s)) = messages s ∧
  sockets (fst (sendChatMessage text now s)) = sockets s ∧
  timers (fst (sendChatMessage text now s)) = timers s ∧
  (∀ (data : JsValue) (t : Service.State),
     Service.ws t = None → Service.send data t = (t, Some TypeError)) ∧
  snd (sendChatMessage text now s) = Fulfilled ∧
  console (fst (sendChatMessage text now s)) = (console s ++ [LogNotInitialized])%list ∧
  socket (fst (sendChatMessage text now s)) = None ∧
  status (fst (sendChatMessage text now s)) = status s ∧
  pingInterval (fst (sendChatMessage text now s)) = pingInterval s ∧
  username (fst (sendChatMessage text now s)) = username s ∧
  userCount (fst (sendChatMessage text now s)) = userCount s ∧
  nextTimer (fst (sendChatMessage text now s)) = nextTimer s.
Proof.
  intros Hnone. unfold sendChatMessage. rewrite Hnone. simpl.
  repeat match goal with |- _ ∧ _ => split end; try done.
  intros data t Ht. unfold Service.send. by rewrite Ht.
Qed.

(** C8, as amended.  [rename(newName)] always stores the new name, blank
    or not, because the input is bound to [username].  It never touches
    the status, the stored handle, the log or the timers, and creates no
    transport.  Exactly one JOIN message carrying the stored name goes out
    on the stored transport when the trimmed name is not empty and that
    transport is open; in every other case nothing is sent. *)
Theorem rename_effect (newName now : string) (s : State) :
  username (rename newName now s) = newName ∧
  set_sockets (sockets s) (rename newName now s) = set_username newName s ∧
  length (sockets (rename newName now s)) = length (sockets s) ∧
  (∀ h w, (0 < String.length (trim newName))%nat →
     socket s = Some h → sockets s !! h = Some w → readyState w = OPEN →
     sockets (rename newName now s) =
       <[h := push_frame (wire_message "JOIN" newName "" now) w]> (sockets s)) ∧
  (String.length (trim newName) = 0%nat ∨ socket s = None ∨
     (∃ h, socket s = Some h ∧ is_open h (sockets s) = false) →
   rename newName now s = set_username newName s).
Proof.
  unfold rename, updateUsername, sendJoinMessage. simpl.
  destruct (0 <? String.length (trim newName))%nat eqn:Hlen.
  2: { apply Nat.ltb_ge in Hlen. repeat split; try by destruct s.
       intros; lia. }
  apply Nat.ltb_lt in Hlen.
  destruct (socket s) as [h|] eqn:Hsock.
  2: { repeat split; try by destruct s. }
  destruct (is_open h (sockets s)) eqn:Hopen; simpl.
  - destruct (ws_send_open h (wire_message "JOIN" newName "" now) _ Hopen)
      as (w & Hw & Hready & Hsend).
    rewrite Hsend. repeat split; try by destruct s.
    + simpl. by rewrite length_insert.
    + intros h' w' _ [= <-] Hw' _. simpl. congruence.
    + intros [Hz | [Hn | (h' & [= <-] & Hclosed)]]; [lia | done | congruence].
  - repeat split; try by destruct s.
    intros h' w' _ [= <-] Hw' Hready. exfalso.
    unfold is_open, readyState_at in Hopen. rewrite Hw' in Hopen. simpl in Hopen.
    rewrite Hready in Hopen. by rewrite bool_decide_eq_true_2 in Hopen.
Qed.
End Commands.

(** ** The readiness wait of [send] *)

Section ReadinessWait.
Import HomeView.
Context {P : Platform} {cfg : Config}.

Lemma fire_poll (id : positive) (n ms : Z) (text now : string) (s : State) :
  timers s !! id = Some (Interval (PollCb n text) ms) →
  fire id now s = fst (poll_tick id n text now s).
Proof. intros H. unfold fire. by rewrite H. Qed.

(** A poll below the limit that finds the stored transport not open only
    counts. *)
Lemma poll_counts (text now : string) (s : State) (h : nat) (n : Z) :
  socket s = Some h → is_open h (sockets s) = false →
  (n ≤ connectionAttempts - 1)%Z →
  fire (nextTimer s) now (waiting s text n) = waiting s text (n + 1)%Z.
Proof.
  intros Hsock Hclosed Hn.
  unfold waiting.
  erewrite fire_poll by (simpl; apply lookup_insert_eq).
  unfold poll_tick. simpl.
  destruct (Z.gtb_spec n (connectionAttempts - 1)) as [|_]; [lia|].
  rewrite Hsock, Hclosed. simpl. unfold set_timers. simpl.
  by rewrite alter_insert_eq.
Qed.

Lemma polls_count (text now : string) (s : State) (h : nat) (n : nat) :
  socket s = Some h → is_open h (sockets s) = false →
  (Z.of_nat n ≤ connectionAttempts)%Z →
  Nat.iter n (fire (nextTimer s) now) (waiting s text 0%Z)
  = waiting s text (Z.of_nat n).
Proof.
  intros Hsock Hclosed. induction n as [|n IH]; intros Hn; [done|].
  rewrite Nat.iter_succ, IH by lia.
  rewrite (poll_counts _ _ _ h) by (done || lia).
  by replace (Z.of_nat n + 1)%Z with (Z.of_nat (S n)) by lia.
Qed.

(** C6, as amended.  While the stored transport exists but is not open,
    [send(text)] sends nothing and suspends on a polling interval of
    period [connectionInterval].  Each poll that finds the stored
    transport not open only counts, up to [connectionAttempts] of them.
    A poll within that limit that finds the stored transport open stops
    the interval and sends the one CHAT message, stamped with the user
    name and the time of that poll.  The poll after [connectionAttempts]
    unsuccessful ones (any poll whose count has reached the limit) stops
    the interval and gives up: the timeout error
    is caught inside [send] and written to the error console, the promise
    the caller holds is fulfilled, not rejected, nothing is sent, and the
    interval never runs again. *)
Theorem send_waits_for_open (text now : string) (s : State) (h : nat) :
  socket s = Some h →
  is_open h (sockets s) = false →
  sendChatMessage text now s = (waiting s text 0%Z, Pending) ∧
  sockets (waiting s text 0%Z) = sockets s ∧
  (∀ (n : nat) (now' : string), (Z.of_nat n ≤ connectionAttempts)%Z →
     Nat.iter n (fire (nextTimer s) now') (waiting s text 0%Z)
     = waiting s text (Z.of_nat n)) ∧
  (∀ (n : Z) (now' : string), (connectionAttempts ≤ n)%Z →
     poll_tick (nextTimer s) n text now' (waiting s text n)
     = (console_error (LogSendError (Error_max_attempts connectionAttempts))
          (clearInterval (Some (nextTimer s)) (waiting s text n)),
        Fulfilled) ∧
     sockets (fire (nextTimer s) now' (waiting s text n)) = sockets s ∧
     timers (fire (nextTimer s) now' (waiting s text n)) !! nextTimer s = None) ∧
  (∀ (s1 : State) (id : positive) (n ms : Z) (h1 : nat) (w : WebSocketObj) (now' : string),
     timers s1 !! id = Some (Interval (PollCb n text) ms) →
     (n ≤ connectionAttempts - 1)%Z →
     socket s1 = Some h1 → sockets s1 !! h1 = Some w → readyState w = OPEN →
     poll_tick id n text now' s1
     = (set_sockets
          (<[h1 := push_frame (wire_message "CHAT" (username s1) text now') w]> (sockets s1))
          (clearInterval (Some id) s1),
        Fulfilled)).
Proof.
  intros Hsock Hclosed. split; [|split; [|split; [|split]]].
  - unfold sendChatMessage, waitForOpenConnection. by rewrite Hsock, Hclosed.
  - done.
  - intros n now' Hn. by apply (polls_count _ _ _ h).
  - intros n now' Hn.
    assert (poll_tick (nextTimer s) n text now' (waiting s text n)
            = (console_error (LogSendError (Error_max_attempts connectionAttempts))
                 (clearInterval (Some (nextTimer s)) (waiting s text n)),
               Fulfilled)) as Htick.
    { unfold poll_tick, catch_send.
      destruct (Z.gtb_spec n (connectionAttempts - 1)); [done | lia]. }
    split; [done|].
    erewrite fire_poll by (unfold waiting; simpl; apply lookup_insert_eq).
    rewrite Htick. simpl. split; [done|]. apply lookup_delete_eq.
  - intros s1 id n ms h1 w now' Htimer Hn Hsock1 Hw Hready.
    unfold poll_tick.
    destruct (Z.gtb_spec n (connectionAttempts - 1)) as [|_]; [lia|].
    rewrite Hsock1.
    assert (is_open h1 (sockets s1) = true) as Hopen.
    { unfold is_open, readyState_at. rewrite Hw. simpl. rewrite Hready.
      by apply bool_decide_eq_true_2. }
    rewrite Hopen. unfold resume_send, send_chat. simpl. rewrite Hsock1.
    destruct (ws_send_open h1 (wire_message "CHAT" (username s1) text now') _ Hopen)
      as (w' & Hw' & _ & Hsend).
    rewrite Hsend. by simplify_eq.
Qed.
End ReadinessWait.

(** ** Closing and reconnecting *)

Section Reconnection.
Import HomeView.
Context {P : Platform} {cfg : Config}.

Lemma quiet_refl (s : State) : quiet s s.
Proof. by repeat split. Qed.

Lemma quiet_trans (s1 s2 s3 : State) : quiet s1 s2 → quiet s2 s3 → quiet s1 s3.
Proof.
  intros (? & ? & H12) (? & ? & H23). repeat split; [congruence | congruence | eauto].
Qed.

Lemma quiet_clearInterval (id : option positive) (s : State) :
  quiet s (clearInterval id s).
Proof.
  repeat split. intros i [ms H]. exists ms. destruct id as [j|]; simpl in H; [|done].
  by apply lookup_delete_Some in H as [_ H].
Qed.

Lemma quiet_clearPingInterval (s : State) : quiet s (clearPingInterval s).
Proof.
  unfold clearPingInterval. destruct (pingInterval s) as [id|]; [|apply quiet_refl].
  apply (quiet_trans _ (clearInterval (Some id) s)); [apply quiet_clearInterval|].
  by repeat split.
Qed.

Lemma quiet_sockets (l : list WebSocketObj) (s : State) :
  length l = length (sockets s) → quiet s (set_sockets l s).
Proof. by repeat split. Qed.

Lemma quiet_bump (id : positive) (s : State) :
  quiet s (set_timers (alter bump id (timers s)) (nextTimer s) s).
Proof.
  repeat split. intros i [ms H]. exists ms. simpl in H.
  apply lookup_alter_Some in H as [(_ & t & Ht & Hb)|[_ H]]; [|done].
  by destruct t as [[]|]; simpl in Hb; simplify_eq.
Qed.

Lemma quiet_websocketOnMessage (data now : string) (s : State) :
  quiet s (websocketOnMessage data now s).
Proof.
  unfold websocketOnMessage.
  destruct (JSON_parse data) as [v|]; [|by repeat split].
  unfold handle_data. destruct (member "type" v) as [ty|]; [|by repeat split].
  destruct (is_string "PONG" ty); [apply quiet_refl|].
  destruct (is_string "USER_COUNT" ty); [|by repeat split].
  destruct (member "message" v); by repeat split.
Qed.

Lemma quiet_resume_send (text now : string) (s : State) :
  quiet s (fst (resume_send text now s)).
Proof.
  unfold resume_send, send_chat.
  destruct (socket s) as [h|]; [|by repeat split].
  destruct (ws_send _ _ _) as [l|] eqn:Hs; simpl; [|by repeat split].
  apply quiet_sockets. eauto using ws_send_length.
Qed.

Lemma quiet_poll_tick (id : positive) (n : Z) (text now : string) (s : State) :
  quiet s (fst (poll_tick id n text now s)).
Proof.
  unfold poll_tick, catch_send.
  destruct (n >? connectionAttempts - 1)%Z; simpl.
  { apply (quiet_trans _ (clearInterval (Some id) s)); [apply quiet_clearInterval|].
    by repeat split. }
  destruct (socket s) as [h|] eqn:Hsock; [|apply quiet_bump].
  destruct (is_open h (sockets s)); [|apply quiet_bump].
  eapply quiet_trans; [apply (quiet_clearInterval (Some id))|apply quiet_resume_send].
Qed.

Lemma quiet_ping_tick (now : string) (s : State) :
  status s ≠ 1 → quiet s (ping_tick now s).
Proof.
  intros Hst. unfold ping_tick.
  destruct (socket s) as [h|]; [|apply quiet_clearPingInterval].
  destruct (Nat.eqb_spec (status s) 1) as [|_]; [done|apply quiet_clearPingInterval].
Qed.

Lemma quiet_websocketClose (s : State) :
  status s = 2 → quiet s (websocketClose s).
Proof.
  intros Hst. unfold websocketClose.
  destruct (quiet_clearPingInterval s) as (Hs & Hl & Ht).
  rewrite Hs, Hst. simpl. repeat split; [done | done | done].
Qed.

Lemma quiet_deliver (h : nat) (r : ReadyState) (s : State) : quiet s (deliver h r s).
Proof. apply quiet_sockets. by rewrite length_alter. Qed.

Lemma quiet_run_callback (id : positive) (cb : Callback) (now : string) (s : State) :
  status s = 2 → quiet s (run_callback id cb now s).
Proof.
  intros Hst. destruct cb; simpl.
  - apply quiet_ping_tick. lia.
  - unfold reconnect_cb. rewrite Hst. apply quiet_refl.
  - apply quiet_poll_tick.
Qed.

Lemma quiet_passive_step (e : Event) (s : State) :
  passive e = true → status s = 2 → quiet s (step e s).
Proof.
  intros Hpassive Hst. destruct e; try discriminate; simpl.
  - destruct (readyState_at h (sockets s)) as [[]|];
      auto using quiet_refl, quiet_websocketOnMessage.
  - destruct (readyState_at h (sockets s)) as [[]|]; by repeat split.
  - destruct (readyState_at h (sockets s)) as [[]|]; try apply quiet_refl;
      (eapply quiet_trans; [apply (quiet_deliver h CLOSED)|];
       by apply quiet_websocketClose).
  - unfold fire. destruct (timers s !! id) as [[cb ms|cb ms]|];
      [by apply quiet_run_callback | | apply quiet_refl].
    eapply quiet_trans; [apply (quiet_clearInterval (Some id))|].
    by apply quiet_run_callback.
Qed.

Lemma quiet_passive_run (es : list Event) (s : State) :
  Forall (λ e, passive e = true) es → status s = 2 → quiet s (run es s).
Proof.
  intros Hes. revert s. induction Hes as [|e es He _ IH]; intros s Hst.
  - apply quiet_refl.
  - simpl. pose proof (quiet_passive_step e s He Hst) as Hq.
    eapply quiet_trans; [exact Hq|]. apply IH.
    destruct Hq as [-> _]. exact Hst.
Qed.

(** The same for the service class. *)
Lemma service_quiet_passive_step (e : Service.Event) (t : Service.State) :
  Service.passive e = true → Service.status t = 2 →
  Service.quiet t (Service.step e t).
Proof.
  intros Hpassive Hst. destruct e; try discriminate; simpl.
  - destruct (readyState_at h (Service.sockets t)) as [[]|]; try done;
      unfold Service.onmessage; by destruct (JSON_parse data).
  - by destruct (readyState_at h (Service.sockets t)) as [[]|].
  - destruct (readyState_at h (Service.sockets t)) as [[]|]; try done;
      unfold Service.onClose, Service.quiet; simpl; rewrite Hst; simpl;
      by rewrite length_alter.
  - unfold Service.fire.
    destruct (Service.timers t !! id) as [[[] ms|[] ms]|]; try done; simpl;
      unfold Service.heartbeat_tick, Service.reconnect_cb; simpl; by rewrite Hst.
Qed.

Lemma service_quiet_passive_run (es : list Service.Event) (t : Service.State) :
  Forall (λ e, Service.passive e = true) es → Service.status t = 2 →
  Service.quiet t (Service.run es t).
Proof.
  intros Hes. revert t. induction Hes as [|e es He _ IH]; intros t Hst; [done|].
  simpl. destruct (service_quiet_passive_step e t He Hst) as [Hs Hl].
  destruct (IH (Service.step e t)) as [Hs' Hl']; [congruence|].
  split; congruence.
Qed.

Lemma websocketClose_timers (s : State) :
  timers (websocketClose s) =
    if (status s =? 2)%nat then disarm (pingInterval s) (timers s)
    else <[nextTimer s := Timeout ReconnectCb reconnectTimeout]>
           (disarm (pingInterval s) (timers s)).
Proof.
  unfold websocketClose, clearPingInterval.
  destruct s as [sock st msgs pi un uc socks tm nt co]; simpl.
  destruct pi as [id|]; simpl; by destruct (st =? 2)%nat.
Qed.

Lemma websocketClose_status (s : State) :
  status (websocketClose s) = if (status s =? 2)%nat then 2 else 0.
Proof.
  unfold websocketClose, clearPingInterval.
  destruct s as [sock st msgs pi un uc socks tm nt co]; simpl.
  destruct pi as [id|]; simpl; by destruct (st =? 2)%nat.
Qed.

Lemma websocketClose_inactive (s : State) :
  Inv s → ¬ heartbeat_active (websocketClose s).
Proof.
  intros HI (id & ms & H). rewrite websocketClose_timers in H.
  apply (clearPingInterval_inactive s HI). exists id, ms.
  assert (timers (clearPingInterval s) = disarm (pingInterval s) (timers s)) as ->.
  { unfold clearPingInterval. by destruct (pingInterval s). }
  destruct (status s =? 2)%nat; [done|].
  by apply lookup_insert_Some in H as [[_ ?]|[_ ?]].
Qed.


End Reconnection.

(** ** The lifecycle claims *)

Section Lifecycle.
Import HomeView.
Context {P : Platform} {cfg : Config}.


(** C4, as amended.  A close event that arrives while the status is
    ManuallyClosed leaves it ManuallyClosed.  In the view component it
    arms no reconnect timer; more generally no sequence of close events,
    errors, messages and timer callbacks, in any order, changes the
    status, creates a transport or arms a reconnect timer, so nothing
    reconnects until the user connects again or a transport that was
    still opening opens.  The service class arms the reconnect timer on
    every close event, manual or not; fired while the status is
    ManuallyClosed its callback does nothing, and the same sequences of
    events leave the status and the number of transports unchanged. *)
Theorem manual_close_never_reconnects (es : list Event) (s : State) :
  status s = 2 →
  Forall (λ e, passive e = true) es →
  status (run es s) = 2 ∧
  length (sockets (run es s)) = length (sockets s) ∧
  (∀ id, reconnect_armed id (timers (run es s)) → reconnect_armed id (timers s)) ∧
  timers (websocketClose s) = disarm (pingInterval s) (timers s) ∧
  (∀ (t : Service.State) (es' : list Service.Event),
     Service.status t = 2 →
     Service.timers (Service.onClose t)
       = <[Service.nextTimer t := Timeout Service.ReconnectCb (Service.reconnect t)]>
           (Service.timers t) ∧
     Service.reconnect_cb t = t ∧
     (Forall (λ e, Service.passive e = true) es' →
      Service.status (Service.run es' t) = 2 ∧
      length (Service.sockets (Service.run es' t)) = length (Service.sockets t))).
Proof.
  intros Hst Hes.
  destruct (quiet_passive_run es s Hes Hst) as (Hs & Hl & Ht).
  split; [congruence|]. split; [done|]. split; [done|]. split.
  { rewrite websocketClose_timers. by rewrite Hst. }
  intros t es' Hst'. split; [|split].
  - done.
  - unfold Service.reconnect_cb. by rewrite Hst'.
  - intros Hes'. destruct (service_quiet_passive_run es' t Hes' Hst') as [Hs' Hl'].
    split; congruence.
Qed.

(** C5, as amended.  A close event that arrives while the status is not
    ManuallyClosed sets the status to Disconnected and arms exactly one
    reconnect timeout of [reconnectTimeout] under a fresh handle; in the
    view component it also stops the heartbeat.  When a reconnect timeout
    fires it is gone, and it calls [connect()] exactly when the status is
    Disconnected at that moment: a manual disconnect, or a transport that
    has opened in the meantime, suppresses it.  The service class arms the
    same timeout with the same callback but leaves the heartbeat timer to
    stop itself. *)
Theorem unexpected_close_schedules_reconnect (s : State) (h : nat) (r : ReadyState) :
  reachable s →
  status s ≠ 2 →
  readyState_at h (sockets s) = Some r → r ≠ CLOSED →
  status (step (WsClose h) s) = 0 ∧
  ¬ heartbeat_active (step (WsClose h) s) ∧
  timers s !! nextTimer s = None ∧
  timers (step (WsClose h) s)
    = <[nextTimer s := Timeout ReconnectCb reconnectTimeout]>
        (disarm (pingInterval s) (timers s)) ∧
  (∀ (s1 : State) (id : positive) (ms : Z) (now : string),
     timers s1 !! id = Some (Timeout ReconnectCb ms) →
     step (Fire id now) s1
       = if (status s1 =? 0)%nat then initWebSocket (clearInterval (Some id) s1)
         else clearInterval (Some id) s1) ∧
  (∀ t : Service.State, Service.status t ≠ 2 →
     Service.status (Service.onClose t) = 0 ∧
     Service.timers (Service.onClose t)
       = <[Service.nextTimer t := Timeout Service.ReconnectCb (Service.reconnect t)]>
           (Service.timers t) ∧
     Service.pingInterval (Service.onClose t) = Service.pingInterval t) ∧
  (∀ (t : Service.State) (id : positive) (ms : Z),
     Service.timers t !! id = Some (Timeout Service.ReconnectCb ms) →
     Service.fire id t
       = if (Service.status t =? 0)%nat
         then Service.connect (Service.clearInterval (Some id) t)
         else Service.clearInterval (Some id) t).
Proof.
  intros Hreach Hst Hh Hr. apply reachable_Inv in Hreach.
  assert (step (WsClose h) s = websocketClose (deliver h CLOSED s)) as ->.
  { simpl. rewrite Hh. by destruct r. }
  assert ((status (deliver h CLOSED s) =? 2)%nat = false) as Hne.
  { by apply Nat.eqb_neq. }
  split; [by rewrite websocketClose_status, Hne|].
  split; [by apply websocketClose_inactive, Inv_deliver|].
  split; [by apply nextTimer_free|].
  split; [by rewrite websocketClose_timers, Hne|].
  split; [|split].
  - intros s1 id ms now Hid. simpl. unfold fire. by rewrite Hid.
  - intros t Ht. unfold Service.onClose. simpl.
    by destruct (Nat.eqb_spec (Service.status t) 2).
  - intros t id ms Hid. unfold Service.fire. by rewrite Hid.
Qed.
End Lifecycle.

(** * Worked examples *)

Section Examples.
Import HomeView Sample.
#[local] Existing Instance Sample.platform.
#[local] Existing Instance Sample.config.

(** Splits a conjunction of closed facts and evaluates each of them. *)
Ltac evaluate :=
  repeat match goal with |- _ ∧ _ => split end;
  try (vm_compute; reflexivity).

Lemma reachable_run (es : list Event) (s : State) :
  reachable s → reachable (run es s).
Proof.
  revert s. induction es as [|e es IH]; intros s Hs; [done|].
  simpl. apply IH. by constructor.
Qed.


(** C1 fails as stated.  After one click on Connect transport 0 is
    mid-handshake and the page still offers Connect; the second
    [connect()] changes the state and leaves two live transports.  In
    status Connected the function does the same. *)
Lemma connect_twice_two_transports :
  run_offered [ClickConnect] (initial guest) = Some connecting ∧
  readyState_at 0 (sockets connecting) = Some CONNECTING ∧
  run_offered [ClickConnect; ClickConnect] (initial guest)
    = Some (initWebSocket connecting) ∧
  initWebSocket connecting ≠ connecting ∧
  live_count (sockets (initWebSocket connecting)) = 2 ∧
  status connected = 1 ∧
  initWebSocket connected ≠ connected ∧
  live_count (sockets (initWebSocket connected)) = 2.
Proof.
  evaluate.
  - intros H. apply (f_equal (λ s, length (sockets s))) in H.
    vm_compute in H. discriminate.
  - intros H. apply (f_equal (λ s, length (sockets s))) in H.
    vm_compute in H. discriminate.
Qed.



(** C4 fails as stated.  In the service class the close event that
    follows [close()] arms a reconnect timeout.  In the view component a
    close event that arrives after the user has reconnected and the new
    transport has opened arms one too, and when it fires a third
    transport is created beside the open one. *)
Lemma close_after_disconnect_arms_timer :
  Service.status service_closing = 2 ∧
  Service.timers (Service.step (Service.WsClose 0) service_closing) !! 2%positive
    = Some (Timeout Service.ReconnectCb 5000) ∧
  run_offered late_close (initial guest) = Some (run late_close (initial guest)) ∧
  status (run [ClickConnect; WsOpen 0 t0; ClickDisconnect] (initial guest)) = 2 ∧
  timers (run late_close (initial guest)) !! 3%positive
    = Some (Timeout ReconnectCb 5000) ∧
  live_count (sockets (step (Fire 3 t0) (run late_close (initial guest)))) = 2.
Proof. evaluate. Qed.

(** C5 fails as stated: a [connect()] during the reconnect delay does not
    suppress the scheduled attempt while its transport is mid-handshake;
    the timeout fires and a second transport is created beside it. *)
Lemma early_reconnect_two_transports :
  run_offered early_reconnect (initial guest)
    = Some (run early_reconnect (initial guest)) ∧
  readyState_at 1 (sockets (run early_reconnect (initial guest))) = Some CONNECTING ∧
  readyState_at 2 (sockets (run early_reconnect (initial guest))) = Some CONNECTING ∧
  live_count (sockets (run early_reconnect (initial guest))) = 2.
Proof. evaluate. Qed.

(** C6 fails as stated: when the polls are exhausted the promise of
    [send] is fulfilled, not rejected; the error only reaches the
    console. *)
Lemma send_timeout_is_swallowed :
  run_offered double_connect (initial guest) = Some connected_elsewhere ∧
  offered connected_elsewhere (SendMessage "hi" t0) = true ∧
  readyState_at 1 (sockets connected_elsewhere) = Some CONNECTING ∧
  sendChatMessage "hi" t0 connected_elsewhere
    = (waiting connected_elsewhere "hi" 0, Pending) ∧
  Nat.iter 10 (fire 2 t0) (waiting connected_elsewhere "hi" 0)
    = waiting connected_elsewhere "hi" 10 ∧
  snd (poll_tick 2 10 "hi" t0 (waiting connected_elsewhere "hi" 10)) = Fulfilled ∧
  console (fst (poll_tick 2 10 "hi" t0 (waiting connected_elsewhere "hi" 10)))
    = [LogSendError (Error_max_attempts 10)].
Proof. evaluate. Qed.

(** C7 fails as stated: with no transport ever created, [send] does not
    fail with NotInitialized.  In the view component its promise is
    fulfilled and the error only reaches the console, also in a state the
    page reaches with the chat input offered and no transport stored.  In
    the service class the caller gets a TypeError. *)
Lemma send_without_transport_is_swallowed :
  socket (initial guest) = None ∧
  sockets (initial guest) = [] ∧
  snd (sendChatMessage "hi" t0 (initial guest)) = Fulfilled ∧
  snd (sendChatMessage "hi" t0 (initial guest)) ≠ Rejected Error_not_initialized ∧
  console (fst (sendChatMessage "hi" t0 (initial guest))) = [LogNotInitialized] ∧
  run_offered late_open (initial guest) = Some (run late_open (initial guest)) ∧
  offered (run late_open (initial guest)) (SendMessage "hi" t0) = true ∧
  socket (run late_open (initial guest)) = None ∧
  snd (sendChatMessage "hi" t0 (run late_open (initial guest))) = Fulfilled ∧
  Service.ws (Service.constructor "ws://localhost:8080/chat") = None ∧
  snd (Service.send (JStr "hi") (Service.constructor "ws://localhost:8080/chat"))
    = Some TypeError ∧
  snd (Service.send (JStr "hi") (Service.constructor "ws://localhost:8080/chat"))
    ≠ Some Error_not_initialized.
Proof. evaluate; vm_compute; discriminate. Qed.

(** C8 fails as stated.  With a name that is not blank but a stored
    transport that is not open, no JOIN goes out on any transport.  With
    a blank name the stored user name changes all the same. *)
Lemma rename_without_join :
  run_offered double_connect (initial guest) = Some connected_elsewhere ∧
  offered connected_elsewhere (ClickUpdateName t0) = true ∧
  username (rename "Bob" t0 connected_elsewhere) = "Bob" ∧
  sockets (rename "Bob" t0 connected_elsewhere) = sockets connected_elsewhere ∧
  trim "  " = "" ∧
  username connected = "Guest-1" ∧
  username (rename "  " t0 connected) = "  ".
Proof. evaluate. Qed.

(** C10 fails as stated: the payload [null] parses, carries no kind, and
    gets the System fallback instead of being appended as parsed. *)
Lemma null_payload_gets_fallback :
  JSON_parse "null" = Some JNull ∧
  carries_kind JNull = false ∧
  messages connected = [] ∧
  messages (websocketOnMessage "null" t0 connected) = [system_message "null" t0] ∧
  messages (websocketOnMessage "null" t0 connected) ≠ [JNull].
Proof. evaluate. vm_compute. discriminate. Qed.

(** The theorems above, applied to these states. *)

Lemma connect_opens_new_transport_witness :
  live_count (sockets (initWebSocket connecting)) = S (live_count (sockets connecting)) ∧
  offered connecting ClickConnect = negb (status connecting =? 1)%nat.
Proof.
  destruct (connect_opens_new_transport connecting) as (_ & _ & Hlive & _ & _ & Hgate & _).
  - apply reachable_run, reach_initial.
  - split; [exact Hlive | exact Hgate].
Defined.



Lemma manual_close_never_reconnects_witness :
  status (run [WsClose 0; Fire 1 t0] disconnected) = 2 ∧
  length (sockets (run [WsClose 0; Fire 1 t0] disconnected)) = length (sockets disconnected).
Proof.
  destruct (manual_close_never_reconnects [WsClose 0; Fire 1 t0] disconnected)
    as (Hstatus & Hlength & _).
  - vm_compute. reflexivity.
  - repeat constructor.
  - split; [exact Hstatus | exact Hlength].
Defined.

Lemma unexpected_close_schedules_reconnect_witness :
  status (step (WsClose 0) connected) = 0 ∧
  timers (step (WsClose 0) connected)
    = <[nextTimer connected := Timeout ReconnectCb reconnectTimeout]>
        (disarm (pingInterval connected) (timers connected)).
Proof.
  destruct (unexpected_close_schedules_reconnect connected 0 OPEN)
    as (Hstatus & _ & _ & Htimers & _).
  - apply reachable_run, reach_initial.
  - vm_compute. discriminate.
  - vm_compute. reflexivity.
  - discriminate.
  - split; [exact Hstatus | exact Htimers].
Defined.

Lemma send_waits_for_open_witness :
  sendChatMessage "hi" t0 connecting = (waiting connecting "hi" 0, Pending).
Proof.
  destruct (send_waits_for_open "hi" t0 connecting 0) as (Hsuspend & _).
  - vm_compute. reflexivity.
  - vm_compute. reflexivity.
  - exact Hsuspend.
Defined.

Lemma send_without_transport_witness :
  snd (sendChatMessage "hi" t0 (initial guest)) = Fulfilled ∧
  console (fst (sendChatMessage "hi" t0 (initial guest))) = [LogNotInitialized] ∧
  messages (fst (sendChatMessage "hi" t0 (initial guest))) = [] ∧
  sockets (fst (sendChatMessage "hi" t0 (initial guest))) = [].
Proof.
  destruct (send_without_transport "hi" t0 (initial guest))
    as (_ & Hlog & Hwire & _ & _ & Hdone & Hconsole & _).
  - reflexivity.
  - split; [exact Hdone|]. split; [exact Hconsole|].
    split; [exact Hlog | exact Hwire].
Defined.

Lemma rename_effect_witness :
  sockets (rename "Bob" t0 connected)
    = <[0 := push_frame (wire_message "JOIN" "Bob" "" t0)
               {| url := "ws://localhost:8080/chat"; readyState := OPEN;
                  sent := [wire_message "JOIN" guest "" t0] |}]>
        (sockets connected).
Proof.
  destruct (rename_effect "Bob" t0 connected) as (_ & _ & _ & Hjoin & _).
  apply Hjoin.
  - vm_compute. lia.
  - vm_compute. reflexivity.
  - vm_compute. reflexivity.
  - reflexivity.
Defined.

Lemma malformed_payload_fallback_witness :
  messages (websocketOnMessage "hello" t0 connected)
    = [JObj [("name", JStr "System"); ("message", JStr "hello");
             ("timestamp", JStr t0); ("type", JStr "CHAT")]] ∧
  length (messages (websocketOnMessage "hello" t0 connected)) = 1.
Proof.
  destruct (malformed_payload_fallback "hello" t0 connected) as (Hlog & Hlength & _).
  - vm_compute. reflexivity.
  - split; [exact Hlog | exact Hlength].
Defined.

Lemma unrecognized_value_logged_witness :
  websocketOnMessage "5" t0 connected
    = set_messages (messages connected ++ [JNum five]) connected.
Proof.
  apply (unrecognized_value_logged "5" t0 (JNum five) connected).
  - vm_compute. reflexivity.
  - reflexivity.
Defined.
End Examples.

(** * Further properties *)

(** ** The wire *)

Section Wire.
Import HomeView.
Context {P : Platform} {cfg : Config}.

Lemma client_frame_CHAT (name text ts : string) :
  client_frame (wire_message "CHAT" name text ts).
Proof. exists name, text, ts. by left. Qed.

Lemma client_frame_JOIN (name ts : string) :
  client_frame (wire_message "JOIN" name "" ts).
Proof. exists name, "", ts. right. by left. Qed.

Lemma client_frame_PING (ts : string) :
  client_frame (wire_message "PING" "System" "ping" ts).
Proof. exists "", "", ts. right. by right. Qed.

Lemma sockets_clearPingInterval (s : State) : sockets (clearPingInterval s) = sockets s.
Proof. unfold clearPingInterval. by destruct (pingInterval s). Qed.

Lemma sockets_startPingInterval (s : State) : sockets (startPingInterval s) = sockets s.
Proof. unfold startPingInterval. by destruct (pingInterval s). Qed.

#[local] Abbreviation ops := (rtc (wire_op client_frame getWebSocketUrl)).

Lemma ops_sendJoinMessage (now : string) (s : State) :
  ops (sockets s) (sockets (sendJoinMessage now s)).
Proof.
  unfold sendJoinMessage. destruct (socket s) as [h|]; [|done].
  destruct (is_open h (sockets s)); simpl; [|done].
  destruct (ws_send _ _ _) as [l|] eqn:Hs; [|done].
  eapply rtc_once, op_send; [apply client_frame_JOIN | exact Hs].
Qed.

Lemma ops_resume_send (text now : string) (s : State) :
  ops (sockets s) (sockets (fst (resume_send text now s))).
Proof.
  unfold resume_send, send_chat. destruct (socket s) as [h|]; [|done].
  destruct (ws_send _ _ _) as [l|] eqn:Hs; [|done].
  eapply rtc_once, op_send; [apply client_frame_CHAT | exact Hs].
Qed.

Lemma ops_sendChatMessage (text now : string) (s : State) :
  ops (sockets s) (sockets (fst (sendChatMessage text now s))).
Proof.
  unfold sendChatMessage, waitForOpenConnection, send_chat.
  destruct (socket s) as [h|]; [|done].
  destruct (is_open h (sockets s)); simpl; [|done].
  destruct (ws_send _ _ _) as [l|] eqn:Hs; [|done].
  eapply rtc_once, op_send; [apply client_frame_CHAT | exact Hs].
Qed.

Lemma ops_poll_tick (id : positive) (n : Z) (text now : string) (s : State) :
  ops (sockets s) (sockets (fst (poll_tick id n text now s))).
Proof.
  unfold poll_tick, catch_send. destruct (n >? connectionAttempts - 1)%Z; [done|].
  destruct (socket s) as [h|] eqn:Hsock; [|done].
  destruct (is_open h (sockets s)); [|done].
  apply (ops_resume_send text now (clearInterval (Some id) s)).
Qed.

Lemma ops_ping_tick (now : string) (s : State) :
  ops (sockets s) (sockets (ping_tick now s)).
Proof.
  unfold ping_tick. destruct (socket s) as [h|]; [|by rewrite sockets_clearPingInterval].
  destruct (status s =? 1)%nat; [|by rewrite sockets_clearPingInterval].
  destruct (ws_send _ _ _) as [l|] eqn:Hs; [|done].
  eapply rtc_once, op_send; [apply client_frame_PING | exact Hs].
Qed.

Lemma ops_reconnect_cb (s : State) : ops (sockets s) (sockets (reconnect_cb s)).
Proof.
  unfold reconnect_cb. destruct (status s =? 0)%nat; [|done].
  apply rtc_once, op_new.
Qed.

Lemma ops_websocketOnOpen (now : string) (s : State) :
  ops (sockets s) (sockets (websocketOnOpen now s)).
Proof.
  unfold websocketOnOpen.
  pose proof (ops_sendJoinMessage now (startPingInterval (set_status 1 s))) as H.
  by rewrite sockets_startPingInterval in H.
Qed.

Lemma sockets_websocketClose (s : State) : sockets (websocketClose s) = sockets s.
Proof.
  unfold websocketClose, clearPingInterval.
  destruct s as [? st ? [|] ? ? ? ? ? ?]; simpl; by destruct (st =? 2)%nat.
Qed.

Lemma sockets_websocketOnMessage (data now : string) (s : State) :
  sockets (websocketOnMessage data now s) = sockets s.
Proof.
  unfold websocketOnMessage. destruct (JSON_parse data) as [v|]; [|done].
  unfold handle_data. destruct (member "type" v) as [ty|]; [|done].
  destruct (is_string "PONG" ty); [done|].
  destruct (is_string "USER_COUNT" ty); [|done].
  by destruct (member "message" v).
Qed.

Lemma ops_closeConnection (s : State) : ops (sockets s) (sockets (closeConnection s)).
Proof.
  unfold closeConnection. destruct (socket s) as [h|]; [|done]. simpl.
  rewrite sockets_clearPingInterval. simpl. apply rtc_once, op_close.
Qed.

Lemma ops_run_callback (id : positive) (cb : Callback) (now : string) (s : State) :
  ops (sockets s) (sockets (run_callback id cb now s)).
Proof.
  destruct cb; simpl; auto using ops_ping_tick, ops_reconnect_cb, ops_poll_tick.
Qed.

Lemma ops_step (e : Event) (s : State) : ops (sockets s) (sockets (step e s)).
Proof.
  destruct e; simpl.
  - apply rtc_once, op_new.
  - apply ops_closeConnection.
  - done.
  - unfold updateUsername. destruct (0 <? _)%nat; [apply ops_sendJoinMessage | done].
  - apply ops_sendChatMessage.
  - destruct (readyState_at h (sockets s)) as [[]|]; try done.
    eapply rtc_l; [apply (op_deliver _ _ h OPEN)|].
    apply (ops_websocketOnOpen now (deliver h OPEN s)).
  - destruct (readyState_at h (sockets s)) as [[]|]; try done;
      by rewrite sockets_websocketOnMessage.
  - by destruct (readyState_at h (sockets s)) as [[]|].
  - destruct (readyState_at h (sockets s)) as [[]|]; try done;
      rewrite sockets_websocketClose; apply rtc_once, op_deliver.
  - unfold fire. destruct (timers s !! id) as [[cb ms|cb ms]|]; [| |done].
    + apply ops_run_callback.
    + apply (ops_run_callback id cb now (clearInterval (Some id) s)).
Qed.

Lemma ops_run (es : list Event) (s : State) : ops (sockets s) (sockets (run es s)).
Proof.
  revert s. induction es as [|e es IH]; intros s; [done|].
  simpl. etrans; [apply ops_step | apply IH].
Qed.

Lemma wire_op_frames (F : JsValue → Prop) (u : string) (l l' : list WebSocketObj) :
  wire_op F u l l' →
  Forall (λ w, Forall F (sent w)) l → Forall (λ w, Forall F (sent w)) l'.
Proof.
  intros [h f l1 l2 Hf Hsend|h l1|h r l1|l1] Hall.
  - unfold ws_send in Hsend. destruct (l1 !! h) as [w|] eqn:Hw; [|done].
    destruct (readyState w); simplify_eq; try done.
    apply Forall_insert; [done|]. simpl. apply Forall_app. split; [|by constructor].
    exact (Forall_lookup_1 (λ w, Forall F (sent w)) l1 h w Hall Hw).
  - unfold ws_close. destruct (l1 !! h) as [w|] eqn:Hw; [|done].
    destruct (readyState w); try done;
      (apply Forall_insert; [done|]; simpl;
       exact (Forall_lookup_1 (λ w, Forall F (sent w)) l1 h w Hall Hw)).
  - apply Forall_alter; [done|]. by intros w _ Hw.
  - apply Forall_app. split; [done|]. by repeat constructor.
Qed.

Lemma wire_op_urls (F : JsValue → Prop) (u : string) (l l' : list WebSocketObj) :
  wire_op F u l l' →
  Forall (λ w, url w = u) l → Forall (λ w, url w = u) l'.
Proof.
  intros [h f l1 l2 Hf Hsend|h l1|h r l1|l1] Hall.
  - unfold ws_send in Hsend. destruct (l1 !! h) as [w|] eqn:Hw; [|done].
    destruct (readyState w); simplify_eq; try done.
    apply Forall_insert; [done|]. simpl.
    exact (Forall_lookup_1 (λ w, url w = u) l1 h w Hall Hw).
  - unfold ws_close. destruct (l1 !! h) as [w|] eqn:Hw; [|done].
    destruct (readyState w); try done;
      (apply Forall_insert; [done|]; simpl;
       exact (Forall_lookup_1 (λ w, url w = u) l1 h w Hall Hw)).
  - apply Forall_alter; [done|]. by intros w _ Hw.
  - apply Forall_app. split; [done|]. by repeat constructor.
Qed.

Lemma wire_extends_refl (l : list WebSocketObj) : wire_extends l l.
Proof. intros h w Hw. by exists w. Qed.

Lemma wire_extends_trans (l1 l2 l3 : list WebSocketObj) :
  wire_extends l1 l2 → wire_extends l2 l3 → wire_extends l1 l3.
Proof.
  intros H12 H23 h w Hw.
  destruct (H12 h w Hw) as (w2 & Hw2 & Hu2 & Hp2).
  destruct (H23 h w2 Hw2) as (w3 & Hw3 & Hu3 & Hp3).
  exists w3. split; [done|]. split; [congruence|]. by etrans.
Qed.

Lemma wire_extends_insert (l : list WebSocketObj) (i : nat) (w w' : WebSocketObj) :
  l !! i = Some w → url w' = url w → sent w `prefix_of` sent w' →
  wire_extends l (<[i := w']> l).
Proof.
  intros Hw Hu Hp h x Hx. destruct (decide (i = h)) as [->|Hne].
  - exists w'. rewrite list_lookup_insert_eq by (by eapply lookup_lt_Some).
    by simplify_eq.
  - exists x. by rewrite list_lookup_insert_ne.
Qed.

Lemma wire_op_extends (F : JsValue → Prop) (u : string) (l l' : list WebSocketObj) :
  wire_op F u l l' → wire_extends l l'.
Proof.
  intros [h f l1 l2 Hf Hsend|h l1|h r l1|l1].
  - unfold ws_send in Hsend. destruct (l1 !! h) as [w|] eqn:Hw; [|done].
    destruct (readyState w); simplify_eq; try apply wire_extends_refl.
    eapply wire_extends_insert; [done | done |]. simpl. by apply prefix_app_r.
  - unfold ws_close. destruct (l1 !! h) as [w|] eqn:Hw; [|apply wire_extends_refl].
    destruct (readyState w); try apply wire_extends_refl;
      by eapply wire_extends_insert.
  - intros i w Hw. destruct (decide (h = i)) as [->|Hne].
    + exists (set_readyState r w). by rewrite list_lookup_alter_eq, Hw.
    + exists w. by rewrite list_lookup_alter_ne.
  - intros i w Hw. exists w. by rewrite lookup_app_l by (by eapply lookup_lt_Some).
Qed.

Lemma wire_ops_extends (F : JsValue → Prop) (u : string) (l l' : list WebSocketObj) :
  rtc (wire_op F u) l l' → wire_extends l l'.
Proof.
  induction 1 as [|l1 l2 l3 Hop _ IH]; [apply wire_extends_refl|].
  eapply wire_extends_trans; [by eapply wire_op_extends | done].
Qed.

Lemma wire_op_length (F : JsValue → Prop) (u : string) (l l' : list WebSocketObj) :
  wire_op F u l l' → (length l ≤ length l')%nat.
Proof.
  intros [h f l1 l2 Hf Hsend|h l1|h r l1|l1].
  - by rewrite (ws_send_length _ _ _ _ Hsend).
  - by rewrite ws_close_length.
  - by rewrite length_alter.
  - rewrite length_app. simpl. lia.
Qed.

Lemma wire_ops_length (F : JsValue → Prop) (u : string) (l l' : list WebSocketObj) :
  rtc (wire_op F u) l l' → (length l ≤ length l')%nat.
Proof.
  induction 1 as [|l1 l2 l3 Hop _ IH]; [done|].
  apply wire_op_length in Hop. lia.
Qed.
End Wire.

Section WireInvariants.
Import HomeView.
Context {P : Platform} {cfg : Config}.

(** X1.  Every frame the component has ever handed to a transport is one
    of its three messages: a CHAT, a JOIN with an empty body, or the PING
    of the heartbeat, each with the four string fields of the wire
    format. *)
Theorem sent_frames_are_client_frames (s : State) :
  reachable s →
  Forall (λ w, Forall client_frame (sent w)) (sockets s).
Proof.
  induction 1 as [guest|e s _ IH]; [by constructor|].
  pose proof (ops_step e s) as Hops. revert IH.
  induction Hops as [|l1 l2 l3 Hop _ IHops]; [done|].
  intros Hall. apply IHops. by eapply wire_op_frames.
Qed.

(** X2.  No event removes a transport, changes its URL, or alters or
    drops a frame already sent on it: across any run every transport is
    still there under its handle, and what it had sent is a prefix of what
    it has sent now. *)
Theorem wire_is_append_only (es : list Event) (s : State) :
  wire_extends (sockets s) (sockets (run es s)) ∧
  (length (sockets s) ≤ length (sockets (run es s)))%nat.
Proof.
  split.
  - exact (wire_ops_extends _ _ _ _ (ops_run es s)).
  - exact (wire_ops_length _ _ _ _ (ops_run es s)).
Qed.

(** X3.  Every transport the component has opened goes to the URL that
    [getWebSocketUrl] resolves from the configuration. *)
Theorem transports_use_resolved_url (s : State) :
  reachable s →
  Forall (λ w, url w = getWebSocketUrl) (sockets s).
Proof.
  induction 1 as [guest|e s _ IH]; [by constructor|].
  pose proof (ops_step e s) as Hops. revert IH.
  induction Hops as [|l1 l2 l3 Hop _ IHops]; [done|].
  intros Hall. apply IHops. by eapply wire_op_urls.
Qed.
End WireInvariants.

(** ** The message log and the user count *)

Section Session.
Import HomeView.
Context {P : Platform} {cfg : Config}.

(** What the user sees of the conversation. *)
#[local] Abbreviation shown s := (messages s, userCount s).

Lemma shown_clearPingInterval (s : State) : shown (clearPingInterval s) = shown s.
Proof. unfold clearPingInterval. by destruct (pingInterval s). Qed.

Lemma shown_startPingInterval (s : State) : shown (startPingInterval s) = shown s.
Proof. unfold startPingInterval. by destruct (pingInterval s). Qed.

Lemma shown_sendJoinMessage (now : string) (s : State) :
  shown (sendJoinMessage now s) = shown s.
Proof.
  unfold sendJoinMessage. destruct (socket s) as [h|]; [|done].
  destruct (is_open h (sockets s)); simpl; [|done].
  by destruct (ws_send _ _ _).
Qed.

Lemma shown_resume_send (text now : string) (s : State) :
  shown (fst (resume_send text now s)) = shown s.
Proof.
  unfold resume_send, send_chat. destruct (socket s) as [h|]; [|done].
  by destruct (ws_send _ _ _).
Qed.

Lemma shown_sendChatMessage (text now : string) (s : State) :
  shown (fst (sendChatMessage text now s)) = shown s.
Proof.
  unfold sendChatMessage, waitForOpenConnection, send_chat.
  destruct (socket s) as [h|]; [|done].
  destruct (is_open h (sockets s)); simpl; [|done].
  by destruct (ws_send _ _ _).
Qed.

Lemma shown_poll_tick (id : positive) (n : Z) (text now : string) (s : State) :
  shown (fst (poll_tick id n text now s)) = shown s.
Proof.
  unfold poll_tick, catch_send. destruct (n >? connectionAttempts - 1)%Z; [done|].
  destruct (socket s) as [h|] eqn:Hsock; [|done].
  destruct (is_open h (sockets s)); [|done].
  apply (shown_resume_send text now (clearInterval (Some id) s)).
Qed.

Lemma shown_ping_tick (now : string) (s : State) : shown (ping_tick now s) = shown s.
Proof.
  unfold ping_tick. destruct (socket s) as [h|]; [|apply shown_clearPingInterval].
  destruct (status s =? 1)%nat; [|apply shown_clearPingInterval].
  by destruct (ws_send _ _ _).
Qed.

Lemma shown_websocketClose (s : State) : shown (websocketClose s) = shown s.
Proof.
  unfold websocketClose, clearPingInterval.
  destruct s as [? st ? [|] ? ? ? ? ? ?]; simpl; by destruct (st =? 2)%nat.
Qed.

Lemma shown_closeConnection (s : State) : shown (closeConnection s) = shown s.
Proof.
  unfold closeConnection, clearPingInterval.
  by destruct s as [[|] ? ? [|] ? ? ? ? ? ?].
Qed.

Lemma shown_run_callback (id : positive) (cb : Callback) (now : string) (s : State) :
  shown (run_callback id cb now s) = shown s.
Proof.
  destruct cb; simpl; auto using shown_ping_tick, shown_poll_tick.
  unfold reconnect_cb. by destruct (status s =? 0)%nat.
Qed.

Lemma shown_step (e : Event) (s : State) :
  is_message e = false → shown (step e s) = shown s.
Proof.
  intros He. destruct e; try discriminate; simpl.
  - done.
  - apply shown_closeConnection.
  - done.
  - unfold updateUsername. destruct (0 <? _)%nat; [apply shown_sendJoinMessage | done].
  - apply shown_sendChatMessage.
  - destruct (readyState_at h (sockets s)) as [[]|]; try done.
    unfold websocketOnOpen. by rewrite shown_sendJoinMessage, shown_startPingInterval.
  - by destruct (readyState_at h (sockets s)) as [[]|].
  - destruct (readyState_at h (sockets s)) as [[]|]; try done;
      by rewrite shown_websocketClose.
  - unfold fire. destruct (timers s !! id) as [[cb ms|cb ms]|]; [| |done];
      by rewrite shown_run_callback.
Qed.

(** An inbound message adds at most one entry at the end of the log. *)
Lemma websocketOnMessage_log (data now : string) (s : State) :
  ∃ tail : list JsValue,
    messages (websocketOnMessage data now s) = (messages s ++ tail)%list ∧
    (length tail ≤ 1)%nat.
Proof.
  assert (∀ x, ∃ tail : list JsValue,
            (messages s ++ [x])%list = (messages s ++ tail)%list ∧ (length tail ≤ 1)%nat)
    as Hone by (intros x; exists [x]; split; [done | simpl; lia]).
  assert (∃ tail : list JsValue,
            messages s = (messages s ++ tail)%list ∧ (length tail ≤ 1)%nat)
    as Hnone by (exists []; rewrite app_nil_r; split; [done | simpl; lia]).
  unfold websocketOnMessage.
  destruct (JSON_parse data) as [v|]; [|apply Hone].
  unfold handle_data. destruct (member "type" v) as [ty|]; [|apply Hone].
  destruct (is_string "PONG" ty); [apply Hnone|].
  destruct (is_string "USER_COUNT" ty); [|apply Hone].
  destruct (member "message" v); [apply Hnone | apply Hone].
Qed.

Lemma step_log (e : Event) (s : State) :
  ∃ tail : list JsValue,
    messages (step e s) = (messages s ++ tail)%list ∧ (length tail ≤ 1)%nat.
Proof.
  destruct (is_message e) eqn:He.
  - destruct e; try discriminate. simpl.
    destruct (readyState_at h (sockets s)) as [[]|];
      try apply websocketOnMessage_log;
      exists []; rewrite app_nil_r; (split; [done | simpl; lia]).
  - exists []. rewrite app_nil_r. split; [|simpl; lia].
    by injection (shown_step e s He).
Qed.

(** X4.  The message log is append-only: whatever happens, the log of
    before is a prefix of the log of after, and it grows by at most one
    entry per event. *)
Theorem log_append_only (es : list Event) (s : State) :
  messages s `prefix_of` messages (run es s) ∧
  (length (messages (run es s)) ≤ length (messages s) + length es)%nat.
Proof.
  revert s. induction es as [|e es IH]; intros s; [simpl; split; [done|lia]|].
  simpl. destruct (step_log e s) as (tail & Htail & Hlen).
  destruct (IH (step e s)) as [Hpre Hle]. split.
  - etrans; [|exact Hpre]. rewrite Htail. by apply prefix_app_r.
  - rewrite Htail, length_app in Hle. lia.
Qed.

Lemma step_keeps_log (e : Event) (s : State) :
  is_message e = false →
  messages (step e s) = messages s ∧ userCount (step e s) = userCount s.
Proof. intros He. by injection (shown_step e s He). Qed.

(** X5.  Only an inbound message changes the message log or the user
    count.  No command of the user, transport event or timer does; in
    particular a chat message that is sent is not added to the local log
    (it shows up only when the server sends it back). *)
Theorem only_messages_change_log (e : Event) (s : State) :
  is_message e = false →
  messages (step e s) = messages s ∧ userCount (step e s) = userCount s.
Proof. apply step_keeps_log. Qed.

Lemma loggable_system_message (raw now : string) : loggable (system_message raw now).
Proof. by split. Qed.

Lemma loggable_default (v : JsValue) (ty : option JsValue) :
  member "type" v = Normal ty →
  is_string "PONG" ty = false → is_string "USER_COUNT" ty = false →
  loggable v.
Proof.
  intros Hty Hpong Hcount. split; intros Hk;
    destruct (kind_of_object _ _ Hk) as [fields ->]; simpl in Hty; simplify_eq;
    [rewrite (is_string_kind _ _ _ Hk) in Hpong
    |rewrite (is_string_kind _ _ _ Hk) in Hcount];
    by rewrite bool_decide_eq_true_2 in *.
Qed.

Lemma websocketOnMessage_loggable (data now : string) (s : State) :
  Forall loggable (messages s) →
  Forall loggable (messages (websocketOnMessage data now s)).
Proof.
  intros Hall.
  assert (Forall loggable (messages s ++ [system_message data now])) as Hsys.
  { apply Forall_app. split; [done|]. repeat constructor; by vm_compute. }
  unfold websocketOnMessage.
  destruct (JSON_parse data) as [v|]; [|done].
  unfold handle_data. destruct (member "type" v) as [ty|] eqn:Hty; [|done].
  destruct (is_string "PONG" ty) eqn:Hpong; [done|].
  destruct (is_string "USER_COUNT" ty) eqn:Hcount.
  - by destruct (member "message" v).
  - simpl. apply Forall_app. split; [done|].
    repeat constructor; by eapply loggable_default.
Qed.

(** X6.  The log never holds a PONG or a USER_COUNT message: no entry of
    the log of a reachable state is an object of one of these two kinds. *)
Theorem log_holds_no_control_message (s : State) :
  reachable s → Forall loggable (messages s).
Proof.
  induction 1 as [guest|e s _ IH]; [by constructor|].
  destruct (is_message e) eqn:He.
  - destruct e; try discriminate. simpl.
    destruct (readyState_at h (sockets s)) as [[]|];
      auto using websocketOnMessage_loggable.
  - destruct (step_keeps_log e s He) as [-> _]. exact IH.
Qed.

Lemma or_zero_not_nan (x : float) : PrimFloat.is_nan (or_zero x) = false.
Proof.
  unfold or_zero, PrimFloat.is_nan.
  destruct (PrimFloat.eqb x x) eqn:Hx; simpl; [|done].
  destruct (PrimFloat.eqb x PrimFloat.zero); simpl; [done|]. by rewrite Hx.
Qed.


Lemma websocketOnMessage_userCount (data now : string) (s : State) :
  userCount (websocketOnMessage data now s) = userCount s ∨
  ∃ x, userCount (websocketOnMessage data now s) = or_zero x.
Proof.
  unfold websocketOnMessage.
  destruct (JSON_parse data) as [v|]; [|by left].
  unfold handle_data. destruct (member "type" v) as [ty|]; [|by left].
  destruct (is_string "PONG" ty); [by left|].
  destruct (is_string "USER_COUNT" ty); [|by left].
  destruct (member "message" v); [right; by eexists | by left].
Qed.

(** X7.  The user count is always a number: it starts at 0 and the only
    assignment stores [parseInt(...) || 0], so in no reachable state is it
    NaN. *)
Theorem userCount_is_a_number (s : State) :
  reachable s → PrimFloat.is_nan (userCount s) = false.
Proof.
  induction 1 as [guest|e s _ IH]; [done|].
  destruct (is_message e) eqn:He.
  - destruct e; try discriminate. simpl.
    destruct (readyState_at h (sockets s)) as [[]|]; try done;
      (destruct (websocketOnMessage_userCount data now s) as [->|[x ->]];
       [done | apply or_zero_not_nan]).
  - destruct (step_keeps_log e s He) as [_ ->]. exact IH.
Qed.


(** X9.  The classifier does not tell an echo from a foreign message:
    when a payload decodes to a frame the component itself could have sent
    (a CHAT, a JOIN, or its own PING), that frame is appended to the log
    unchanged and nothing else changes. *)
Theorem echoed_frame_is_logged (data now : string) (f : JsValue) (s : State) :
  JSON_parse data = Some f →
  client_frame f →
  websocketOnMessage data now s = set_messages (messages s ++ [f]) s.
Proof.
  intros Hparse (name & text & ts & [->|[->| ->]]);
    unfold websocketOnMessage; rewrite Hparse;
    by rewrite handle_data_default.
Qed.
End Session.

(** ** Status, heartbeat and commands *)

Section MoreCommands.
Import HomeView.
Context {P : Platform} {cfg : Config}.

(** X10.  The [default] branches of the two status switches are dead: in
    every reachable state the badge reads Disconnected, Connected or
    Closed, with the matching style class, never Unknown; and the page
    shows exactly one of the Connect and Disconnect buttons. *)
Theorem status_badge_is_known (s : State) :
  reachable s →
  (connectionStatusText s, connectionStatusClass s)
    ∈ [("Disconnected", "disconnected"); ("Connected", "connected"); ("Closed", "closed")] ∧
  offered s ClickConnect = negb (offered s ClickDisconnect).
Proof.
  intros Hreach. apply reachable_Inv in Hreach.
  pose proof (inv_status s Hreach) as Hst.
  unfold connectionStatusText, connectionStatusClass. simpl.
  destruct (status s) as [|[|[|n]]]; [| | |lia]; (split; [|done]);
    repeat first [apply list_elem_of_here | apply list_elem_of_further].
Qed.

(** X11.  At most one heartbeat interval is armed at any time, and it is
    the one whose handle [pingInterval] holds: starting the heartbeat
    always clears the previous interval first. *)
Theorem one_heartbeat_interval (s : State) (i j : positive) (a b : Z) :
  reachable s →
  timers s !! i = Some (Interval PingCb a) →
  timers s !! j = Some (Interval PingCb b) →
  i = j ∧ pingInterval s = Some i.
Proof.
  intros Hreach Hi Hj. apply reachable_Inv in Hreach.
  destruct (inv_ping s Hreach i a Hi) as [Hpi _].
  destruct (inv_ping s Hreach j b Hj) as [Hpj _].
  split; [congruence | done].
Qed.

Lemma is_open_lookup (h : nat) (l : list WebSocketObj) (w : WebSocketObj) :
  l !! h = Some w → readyState w = OPEN → is_open h l = true.
Proof.
  intros Hw Hready. unfold is_open, readyState_at. rewrite Hw. simpl.
  rewrite Hready. by apply bool_decide_eq_true_2.
Qed.

Lemma ws_send_lookup (h : nat) (f : JsValue) (l : list WebSocketObj) (w : WebSocketObj) :
  l !! h = Some w →
  ws_send h f l =
    match readyState w with
    | CONNECTING => Throw InvalidStateError
    | OPEN => Normal (<[h := push_frame f w]> l)
    | CLOSING | CLOSED => Normal l
    end.
Proof. intros Hw. unfold ws_send. by rewrite Hw. Qed.

Lemma sendChatMessage_open (text now : string) (s : State) (h : nat) (w : WebSocketObj) :
  socket s = Some h → sockets s !! h = Some w → readyState w = OPEN →
  sendChatMessage text now s
    = (set_sockets
         (<[h := push_frame (wire_message "CHAT" (username s) text now) w]> (sockets s)) s,
       Fulfilled).
Proof.
  intros Hsock Hw Hready. unfold sendChatMessage, send_chat.
  rewrite Hsock, (is_open_lookup _ _ _ Hw Hready). simpl.
  by rewrite (ws_send_lookup _ _ _ _ Hw), Hready.
Qed.

(** X12.  While the stored transport is open, [send(text)] is over at
    once: exactly one CHAT frame carrying the current user name, the text
    and the current time is appended to the frames of that transport, and
    nothing else changes: no timer is armed, nothing is logged or
    reported. *)
Theorem send_on_open_transport (text now : string) (s : State) (h : nat) (w : WebSocketObj) :
  socket s = Some h → sockets s !! h = Some w → readyState w = OPEN →
  snd (sendChatMessage text now s) = Fulfilled ∧
  sockets (fst (sendChatMessage text now s)) !! h
    = Some {| url := url w; readyState := OPEN;
              sent := sent w ++ [wire_message "CHAT" (username s) text now] |} ∧
  (∀ h', h' ≠ h → sockets (fst (sendChatMessage text now s)) !! h' = sockets s !! h') ∧
  set_sockets (sockets s) (fst (sendChatMessage text now s)) = s.
Proof.
  intros Hsock Hw Hready. rewrite (sendChatMessage_open _ _ _ _ _ Hsock Hw Hready).
  simpl. split; [done|]. split; [|split].
  - rewrite list_lookup_insert_eq by (by eapply lookup_lt_Some).
    unfold push_frame. by rewrite Hready.
  - intros h' Hne. by rewrite list_lookup_insert_ne.
  - by destruct s.
Qed.

(** X13.  The promise of [send] is never rejected: neither the call nor
    any later poll of its readiness wait ends in a rejection, whatever the
    state of the transports. *)
Theorem send_never_rejects (text now : string) (s : State) (id : positive) (n : Z)
    (e : JsError) :
  snd (sendChatMessage text now s) ≠ Rejected e ∧
  snd (poll_tick id n text now s) ≠ Rejected e.
Proof.
  split.
  - unfold sendChatMessage, waitForOpenConnection, catch_send, send_chat.
    destruct (socket s) as [h|]; [|done].
    destruct (is_open h (sockets s)) eqn:Hopen; simpl; [|done].
    destruct (ws_send_open h (wire_message "CHAT" (username s) text now) _ Hopen)
      as (w & _ & _ & ->). done.
  - unfold poll_tick, catch_send, resume_send.
    destruct (n >? connectionAttempts - 1)%Z; [done|].
    destruct (socket s) as [h|] eqn:Hsock; [|done].
    destruct (is_open h (sockets s)); [|done].
    simpl. rewrite Hsock. by destruct (send_chat _ _ _ _).
Qed.

(** X14.  Two pending sends do not disturb each other, nor the heartbeat:
    a poll of one readiness wait leaves every other timer exactly as it
    was, and never changes the status, the stored handle, the log or the
    number of transports. *)
Theorem polls_are_independent (id id' : positive) (n : Z) (text now : string) (s : State) :
  id' ≠ id →
  timers (fst (poll_tick id n text now s)) !! id' = timers s !! id' ∧
  status (fst (poll_tick id n text now s)) = status s ∧
  socket (fst (poll_tick id n text now s)) = socket s ∧
  messages (fst (poll_tick id n text now s)) = messages s ∧
  length (sockets (fst (poll_tick id n text now s))) = length (sockets s).
Proof.
  intros Hne. unfold poll_tick, catch_send, resume_send, send_chat.
  destruct (n >? connectionAttempts - 1)%Z; simpl.
  { by rewrite lookup_delete_ne. }
  destruct (socket s) as [h|] eqn:Hsock; simpl;
    [|by rewrite lookup_alter_ne].
  destruct (is_open h (sockets s)); simpl; [|by rewrite lookup_alter_ne].
  destruct (ws_send _ _ _) as [l|] eqn:Hsend; simpl;
    rewrite lookup_delete_ne by done; repeat split; try done.
  by apply ws_send_length in Hsend.
Qed.

Lemma startPingInterval_eq (s : State) :
  startPingInterval s
  = set_pingInterval (Some (nextTimer s))
      (set_timers
         (<[nextTimer s := Interval PingCb pingInterval_ms]>
            (disarm (pingInterval s) (timers s)))
         (Pos.succ (nextTimer s)) s).
Proof. unfold startPingInterval. by destruct s as [? ? ? [|] ? ? ? ? ? ?]. Qed.

Lemma insert_after_alter (f : WebSocketObj → WebSocketObj) (h : nat) (x : WebSocketObj)
    (l : list WebSocketObj) :
  <[h := x]> (alter f h l) = <[h := x]> l.
Proof. by rewrite !list_insert_alter, list_alter_alter_eq. Qed.

(** X15.  When the stored transport completes its handshake, the status
    becomes Connected, the heartbeat is armed under a fresh handle with the
    configured period in place of any earlier one, and exactly one JOIN
    frame carrying the current user name and an empty body is sent on that
    transport; the log is untouched. *)
Theorem open_event_announces_user (h : nat) (now : string) (s : State) (w : WebSocketObj) :
  socket s = Some h → sockets s !! h = Some w → readyState w = CONNECTING →
  status (step (WsOpen h now) s) = 1 ∧
  pingInterval (step (WsOpen h now) s) = Some (nextTimer s) ∧
  timers (step (WsOpen h now) s)
    = <[nextTimer s := Interval PingCb pingInterval_ms]>
        (disarm (pingInterval s) (timers s)) ∧
  sockets (step (WsOpen h now) s)
    = <[h := {| url := url w; readyState := OPEN;
                sent := sent w ++ [wire_message "JOIN" (username s) "" now] |}]>
        (sockets s) ∧
  messages (step (WsOpen h now) s) = messages s.
Proof.
  intros Hsock Hw Hready. simpl. unfold readyState_at. rewrite Hw. simpl. rewrite Hready.
  unfold websocketOnOpen. rewrite startPingInterval_eq. unfold sendJoinMessage. simpl.
  rewrite Hsock.
  assert (alter (set_readyState OPEN) h (sockets s) !! h = Some (set_readyState OPEN w))
    as Hw' by (by rewrite list_lookup_alter_eq, Hw).
  rewrite (is_open_lookup _ _ _ Hw') by done. simpl.
  rewrite (ws_send_lookup _ _ _ _ Hw'). simpl.
  by rewrite insert_after_alter.
Qed.

(** X16.  A heartbeat that fires while the status is Connected and a
    transport is stored never stops the heartbeat, whatever state that
    transport is in.  On an open transport it sends exactly one PING frame
    and changes nothing else; on a transport that is closing or closed it
    does nothing at all; on a transport still mid-handshake [send] throws,
    which is reported and changes nothing else. *)
Theorem heartbeat_tick_effect (h : nat) (now : string) (s : State) (w : WebSocketObj) :
  socket s = Some h → status s = 1 → sockets s !! h = Some w →
  timers (ping_tick now s) = timers s ∧
  ping_tick now s =
    match readyState w with
    | OPEN =>
        set_sockets
          (<[h := push_frame (wire_message "PING" "System" "ping" now) w]> (sockets s)) s
    | CONNECTING => console_error (LogUncaught InvalidStateError) s
    | CLOSING | CLOSED => s
    end.
Proof.
  intros Hsock Hst Hw. unfold ping_tick.
  rewrite Hsock, Hst, (ws_send_lookup _ _ _ _ Hw). simpl.
  destruct (readyState w); (split; [done|]); try done; by destruct s.
Qed.

Lemma closeConnection_eq (s : State) (h : nat) :
  socket s = Some h →
  closeConnection s
  = set_socket None
      (set_sockets (ws_close h (sockets s))
         (set_pingInterval None
            (set_timers (disarm (pingInterval s) (timers s)) (nextTimer s)
               (set_status 2 s)))).
Proof.
  intros Hsock. unfold closeConnection, clearPingInterval. rewrite Hsock.
  by destruct s as [? ? ? [|] ? ? ? ? ? ?].
Qed.

Lemma ws_close_sent (h : nat) (l : list WebSocketObj) :
  sent <$> ws_close h l = sent <$> l.
Proof.
  unfold ws_close. destruct (l !! h) as [w|] eqn:Hw; [|done].
  destruct (readyState w); try done;
    by rewrite list_fmap_insert, list_insert_id by (by rewrite list_lookup_fmap, Hw).
Qed.

(** X17.  [disconnect()] releases the stored handle and starts closing
    that transport whatever state it is in, a handshake still pending
    included; it sends no frame (the client does not announce that it
    leaves); and a second [disconnect()] does nothing. *)
Theorem disconnect_releases_transport (s : State) (h : nat) (w : WebSocketObj) :
  socket s = Some h → sockets s !! h = Some w →
  socket (closeConnection s) = None ∧
  status (closeConnection s) = 2 ∧
  readyState_at h (sockets (closeConnection s))
    = Some (match readyState w with CLOSED => CLOSED | _ => CLOSING end) ∧
  sent <$> sockets (closeConnection s) = sent <$> sockets s ∧
  closeConnection (closeConnection s) = closeConnection s.
Proof.
  intros Hsock Hw. rewrite (closeConnection_eq s h Hsock). simpl.
  split; [done|]. split; [done|]. split; [|split; [apply ws_close_sent|done]].
  unfold readyState_at, ws_close. rewrite Hw.
  destruct (readyState w) eqn:Hready;
    rewrite ?list_lookup_insert_eq by (by eapply lookup_lt_Some);
    rewrite ?Hw; simpl; by rewrite ?Hready.
Qed.

(** X18.  A reconnect timeout runs at most once: after it has fired it
    is gone, so a second fire of the same handle changes nothing, and one
    fire creates at most one transport. *)
Theorem reconnect_timeout_runs_once (id : positive) (ms : Z) (now now' : string) (s : State) :
  timers s !! id = Some (Timeout ReconnectCb ms) →
  timers (step (Fire id now) s) !! id = None ∧
  step (Fire id now') (step (Fire id now) s) = step (Fire id now) s ∧
  (length (sockets (step (Fire id now) s)) ≤ S (length (sockets s)))%nat.
Proof.
  intros Hid.
  assert (timers (step (Fire id now) s) !! id = None) as Hgone.
  { simpl. unfold fire. rewrite Hid. simpl. unfold reconnect_cb. simpl.
    destruct (status s =? 0)%nat; simpl; apply lookup_delete_eq. }
  split; [done|]. split.
  - revert Hgone. generalize (step (Fire id now) s). intros s' Hgone.
    simpl. unfold fire. by rewrite Hgone.
  - simpl. unfold fire. rewrite Hid. simpl. unfold reconnect_cb. simpl.
    destruct (status s =? 0)%nat; simpl; rewrite ?length_app; simpl; lia.
Qed.

Lemma Inv_onBeforeUnmount (s : State) : Inv s → Inv (onBeforeUnmount s).
Proof.
  intros HI. unfold onBeforeUnmount. apply Inv_clearPingInterval.
  destruct (socket s) as [h|]; [|done].
  destruct (status s =? 1)%nat; [|done].
  apply Inv_sockets; [apply ws_close_length | done].
Qed.

(** X19.  Unmounting the view is not a manual close.  With an open
    transport stored it stops the heartbeat and starts closing the
    transport but leaves the status Connected; so the close event that
    follows sets the status to Disconnected and arms the reconnect
    timeout, and when that fires a new transport is opened behind the
    unmounted view. *)
Theorem unmount_is_not_a_manual_close (s : State) (h : nat) (w : WebSocketObj) (now : string) :
  reachable s →
  status s = 1 → socket s = Some h → sockets s !! h = Some w → readyState w = OPEN →
  status (onBeforeUnmount s) = 1 ∧
  ¬ heartbeat_active (onBeforeUnmount s) ∧
  readyState_at h (sockets (onBeforeUnmount s)) = Some CLOSING ∧
  status (step (WsClose h) (onBeforeUnmount s)) = 0 ∧
  timers (step (WsClose h) (onBeforeUnmount s)) !! nextTimer s
    = Some (Timeout ReconnectCb reconnectTimeout) ∧
  length (sockets (step (Fire (nextTimer s) now) (step (WsClose h) (onBeforeUnmount s))))
    = S (length (sockets s)).
Proof.
  intros Hreach Hst Hsock Hw Hready. apply reachable_Inv in Hreach.
  assert (onBeforeUnmount s = clearPingInterval (set_sockets (ws_close h (sockets s)) s))
    as Hunmount by (unfold onBeforeUnmount; by rewrite Hsock, Hst).
  assert (status (onBeforeUnmount s) = 1 ∧ nextTimer (onBeforeUnmount s) = nextTimer s ∧
          sockets (onBeforeUnmount s) = ws_close h (sockets s)) as (Hst1 & Hnext & Hsocks).
  { rewrite Hunmount. unfold clearPingInterval.
    by destruct s as [? ? ? [|] ? ? ? ? ? ?]. }
  assert (readyState_at h (sockets (onBeforeUnmount s)) = Some CLOSING) as Hclosing.
  { rewrite Hsocks. unfold readyState_at, ws_close. rewrite Hw, Hready.
    by rewrite list_lookup_insert_eq by (by eapply lookup_lt_Some). }
  split; [done|]. split.
  { rewrite Hunmount. apply clearPingInterval_inactive.
    apply Inv_sockets; [apply ws_close_length | done]. }
  split; [done|].
  assert (step (WsClose h) (onBeforeUnmount s)
          = websocketClose (deliver h CLOSED (onBeforeUnmount s))) as Hstep.
  { simpl. by rewrite Hclosing. }
  assert ((status (deliver h CLOSED (onBeforeUnmount s)) =? 2)%nat = false) as Hne.
  { simpl. by rewrite Hst1. }
  assert (timers (step (WsClose h) (onBeforeUnmount s)) !! nextTimer s
          = Some (Timeout ReconnectCb reconnectTimeout)) as Harmed.
  { rewrite Hstep, websocketClose_timers, Hne. simpl. rewrite Hnext.
    apply lookup_insert_eq. }
  assert (status (step (WsClose h) (onBeforeUnmount s)) = 0) as Hst2.
  { by rewrite Hstep, websocketClose_status, Hne. }
  split; [done|]. split; [done|].
  assert (length (sockets (step (WsClose h) (onBeforeUnmount s))) = length (sockets s))
    as Hlen.
  { rewrite Hstep, sockets_websocketClose. simpl.
    by rewrite length_alter, Hsocks, ws_close_length. }
  revert Harmed Hst2 Hlen. generalize (step (WsClose h) (onBeforeUnmount s)).
  intros s2 Harmed Hst2 Hlen.
  simpl. unfold fire. rewrite Harmed. simpl. unfold reconnect_cb. simpl.
  rewrite Hst2. simpl. rewrite length_app, Hlen. simpl. lia.
Qed.

(** X20.  The Send button of the chat panel emits only a text that is
    not empty and only while the status it was given is Connected, and it
    clears the input exactly when it emits.  Emitted while the stored
    transport is open, the text goes out as exactly one CHAT frame with the
    current user name. *)
Theorem panel_send_effect (messageInput now : string) (s : State) :
  (messageInput = "" ∨ status s ≠ 1 → panel_send messageInput now s = (messageInput, s)) ∧
  (messageInput ≠ "" → status s = 1 →
     panel_send messageInput now s = ("", fst (sendChatMessage messageInput now s)) ∧
     ∀ h w, socket s = Some h → sockets s !! h = Some w → readyState w = OPEN →
       snd (panel_send messageInput now s)
       = set_sockets
           (<[h := push_frame (wire_message "CHAT" (username s) messageInput now) w]>
              (sockets s)) s).
Proof.
  unfold panel_send, ChatClient.send. split.
  - intros [-> | Hst]; [done|].
    destruct (Nat.eqb_spec (status s) 1) as [|_]; [done|]. by rewrite andb_false_r.
  - intros Hne ->. destruct messageInput as [|c rest]; [done|]. simpl.
    split; [done|]. intros h w Hsock Hw Hready.
    by rewrite (sendChatMessage_open _ _ _ _ _ Hsock Hw Hready).
Qed.
End MoreCommands.

(** ** The service class *)

Section ServiceProperties.
Context {P : Platform}.

Lemma service_Inv_sockets (u : string) (l : list WebSocketObj) (t : Service.State) :
  wire_op (λ _, True) u (Service.sockets t) l →
  length l = length (Service.sockets t) →
  Service.Inv u t → Service.Inv u (Service.set_sockets l t).
Proof.
  intros Hop Hlen [Hurl Hping Hrec Hall Hws Hst]. split; simpl; try done.
  - by eapply wire_op_urls.
  - intros h Hh. rewrite Hlen. by apply Hws.
Qed.

Lemma service_Inv_connect (u : string) (t : Service.State) :
  Service.Inv u t → Service.Inv u (Service.connect t).
Proof.
  intros [Hurl Hping Hrec Hall Hws Hst]. split; simpl; try done.
  - apply Forall_app. split; [done|]. by repeat constructor.
  - intros h [= <-]. rewrite length_app. simpl. lia.
Qed.

Lemma service_Inv_frame (u : string) (t t' : Service.State) :
  Service.url t' = Service.url t → Service.ping t' = Service.ping t →
  Service.reconnect t' = Service.reconnect t →
  Service.sockets t' = Service.sockets t → Service.ws t' = Service.ws t →
  (Service.status t' ≤ 2)%nat →
  Service.Inv u t → Service.Inv u t'.
Proof.
  intros Hu Hp Hr Hs Hw Hst [Hurl Hping Hrec Hall Hws _].
  split; [congruence | congruence | congruence | by rewrite Hs | by rewrite Hs, Hw | done].
Qed.

Lemma service_Inv_heartbeat_tick (u : string) (t : Service.State) :
  Service.Inv u t → Service.Inv u (Service.heartbeat_tick t).
Proof.
  intros HI. unfold Service.heartbeat_tick.
  destruct (Service.status t =? 1)%nat.
  - destruct (Service.ws t) as [h|]; [|by eapply service_Inv_frame; try apply HI].
    destruct (ws_send _ _ _) as [l|] eqn:Hs;
      [|by eapply service_Inv_frame; try apply HI].
    apply service_Inv_sockets; [by eapply op_send | by eapply ws_send_length | done].
  - by eapply service_Inv_frame; try apply HI.
Qed.

Lemma service_Inv_step (u : string) (e : Service.Event) (t : Service.State) :
  Service.Inv u t → Service.Inv u (Service.step e t).
Proof.
  intros HI. pose proof (Service.inv_status u t HI) as Hst.
  destruct e; simpl.
  - by apply service_Inv_connect.
  - unfold Service.send. destruct (Service.ws t) as [h|]; [|done].
    destruct (ws_send _ _ _) as [l|] eqn:Hs; [|done]. simpl.
    apply service_Inv_sockets; [by eapply op_send | by eapply ws_send_length | done].
  - unfold Service.close. simpl.
    assert (Service.Inv u (Service.set_status 2 t)) as HI2
      by (eapply service_Inv_frame; try apply HI; done).
    destruct (Service.ws t) as [h|]; [|done]. simpl.
    apply (service_Inv_sockets u _ (Service.set_status 2 t));
      [apply op_close | apply ws_close_length | done].
  - destruct (readyState_at h (Service.sockets t)) as [[]|]; try done.
    assert (Service.Inv u (Service.deliver h OPEN t)) as HI2
      by (apply service_Inv_sockets; [apply op_deliver | apply length_alter | done]).
    eapply service_Inv_frame; try apply HI2; try done. simpl. lia.
  - destruct (readyState_at h (Service.sockets t)) as [[]|]; try done;
      unfold Service.onmessage; destruct (JSON_parse data);
      by eapply service_Inv_frame; try apply HI.
  - destruct (readyState_at h (Service.sockets t)) as [[]|]; try done;
      by eapply service_Inv_frame; try apply HI.
  - assert (Service.Inv u (Service.deliver h CLOSED t)) as HI2
      by (apply service_Inv_sockets; [apply op_deliver | apply length_alter | done]).
    destruct (readyState_at h (Service.sockets t)) as [[]|]; try done;
      (eapply service_Inv_frame; try apply HI2; try done;
       simpl; destruct (Service.status t =? 2)%nat; lia).
  - unfold Service.fire.
    destruct (Service.timers t !! id) as [[[] ms|[] ms]|]; try done; simpl.
    + by apply service_Inv_heartbeat_tick.
    + unfold Service.reconnect_cb. destruct (Service.status t =? 0)%nat; [|done].
      by apply service_Inv_connect.
    + apply service_Inv_heartbeat_tick.
      by eapply service_Inv_frame; try apply HI.
    + assert (Service.Inv u (Service.clearInterval (Some id) t)) as HI2
        by (eapply service_Inv_frame; try apply HI; done).
      unfold Service.reconnect_cb. simpl.
      destruct (Service.status t =? 0)%nat; [|done].
      by apply service_Inv_connect.
Qed.

(** X21.  However an instance of the service class is used, its
    configuration stays as constructed (the URL, ping 10000, reconnect
    5000), every transport it has opened goes to its URL, the transport it
    holds is the most recent one, and the status is 0, 1 or 2. *)
Theorem service_keeps_configuration (u : string) (es : list Service.Event) :
  Service.Inv u (Service.run es (Service.constructor u)).
Proof.
  assert (∀ t, Service.Inv u t → Service.Inv u (Service.run es t)) as Hrun.
  { induction es as [|e es IH]; intros t HI; [done|].
    simpl. by apply IH, service_Inv_step. }
  apply Hrun. split; simpl; try done. lia.
Qed.

(** X22.  The heartbeat callback of the service class clears the interval
    whose handle is stored, not the one that fired.  An interval armed by
    an earlier open therefore survives its own callback when the status is
    not Connected: it stays armed and fires again. *)
Theorem service_stale_heartbeat_survives (id : positive) (ms : Z) (t : Service.State) :
  Service.timers t !! id = Some (Interval Service.HeartbeatCb ms) →
  Service.status t ≠ 1 →
  Service.pingInterval t ≠ Some id →
  Service.timers (Service.step (Service.Fire id) t) !! id
    = Some (Interval Service.HeartbeatCb ms).
Proof.
  intros Hid Hst Hne. simpl. unfold Service.fire. rewrite Hid. simpl.
  unfold Service.heartbeat_tick.
  destruct (Nat.eqb_spec (Service.status t) 1) as [|_]; [done|]. simpl.
  destruct (Service.pingInterval t) as [j|]; simpl; [|done].
  rewrite lookup_delete_ne; [done | congruence].
Qed.

(** X23.  [send] of the service class by state of the held transport:
    open, the data becomes the next frame and nothing else changes;
    mid-handshake, the call throws InvalidStateError and changes nothing;
    closing or closed, the data is dropped without any error. *)
Theorem service_send_effect (data : JsValue) (t : Service.State) (h : nat) (w : WebSocketObj) :
  Service.ws t = Some h → Service.sockets t !! h = Some w →
  Service.send data t =
    match readyState w with
    | OPEN => (Service.set_sockets (<[h := push_frame data w]> (Service.sockets t)) t, None)
    | CONNECTING => (t, Some InvalidStateError)
    | CLOSING | CLOSED => (t, None)
    end.
Proof.
  intros Hws Hw. unfold Service.send, ws_send. rewrite Hws, Hw.
  destruct (readyState w); try done; by destruct t.
Qed.
End ServiceProperties.

(** ** Configuration *)

Section Configuration.
Import HomeView.
Import Stdlib.Strings.Ascii.

Lemma lower_ascii_is (l : Ascii.ascii) (c : Ascii.ascii) :
  (97 ≤ Ascii.nat_of_ascii l ≤ 122)%nat →
  lower_ascii c = l ↔ c = l ∨ c = Ascii.ascii_of_nat (Ascii.nat_of_ascii l - 32).
Proof.
  intros Hl. unfold lower_ascii.
  pose proof (Ascii.nat_ascii_bounded c) as Hc.
  destruct ((65 <=? Ascii.nat_of_ascii c) && (Ascii.nat_of_ascii c <=? 90))%nat eqn:Hup.
  - apply andb_true_iff in Hup as [H1%Nat.leb_le H2%Nat.leb_le]. split.
    + intros <-. right. rewrite Ascii.nat_ascii_embedding by lia.
      replace (Ascii.nat_of_ascii c + 32 - 32)%nat with (Ascii.nat_of_ascii c) by lia.
      by rewrite Ascii.ascii_nat_embedding.
    + intros [-> | ->]; [lia|].
      rewrite Ascii.nat_ascii_embedding by lia.
      replace (Ascii.nat_of_ascii l - 32 + 32)%nat with (Ascii.nat_of_ascii l) by lia.
      by rewrite Ascii.ascii_nat_embedding.
  - split; [by left|]. intros [-> | ->]; [done|]. exfalso.
    rewrite Ascii.nat_ascii_embedding in Hup by lia.
    apply andb_false_iff in Hup as [H%Nat.leb_gt | H%Nat.leb_gt]; lia.
Qed.

(** X24.  [parseEnvBool] is true for exactly the sixteen spellings of
    "true" in upper and lower case, and false for an undefined value, the
    empty text and every other text. *)
Theorem parseEnvBool_true_iff (value : option string) :
  parseEnvBool value = true ↔
  ∃ c1 c2 c3 c4 : Ascii.ascii,
    value = Some (String c1 (String c2 (String c3 (String c4 EmptyString)))) ∧
    (c1 = "t" ∨ c1 = "T")%char ∧ (c2 = "r" ∨ c2 = "R")%char ∧
    (c3 = "u" ∨ c3 = "U")%char ∧ (c4 = "e" ∨ c4 = "E")%char.
Proof.
  assert (∀ c, lower_ascii c = "t"%char ↔ c = "t"%char ∨ c = "T"%char) as Ht
    by (intros c; apply (lower_ascii_is "t"); vm_compute; lia).
  assert (∀ c, lower_ascii c = "r"%char ↔ c = "r"%char ∨ c = "R"%char) as Hr
    by (intros c; apply (lower_ascii_is "r"); vm_compute; lia).
  assert (∀ c, lower_ascii c = "u"%char ↔ c = "u"%char ∨ c = "U"%char) as Hu
    by (intros c; apply (lower_ascii_is "u"); vm_compute; lia).
  assert (∀ c, lower_ascii c = "e"%char ↔ c = "e"%char ∨ c = "E"%char) as He
    by (intros c; apply (lower_ascii_is "e"); vm_compute; lia).
  split.
  - destruct value as [v|]; [|done]. unfold parseEnvBool.
    destruct (String.eqb v ""); [done|]. intros Heq%String.eqb_eq.
    destruct v as [|c1 [|c2 [|c3 [|c4 [|c5 rest]]]]]; try discriminate.
    injection Heq as H1 H2 H3 H4.
    exists c1, c2, c3, c4. split; [done|].
    apply Ht in H1. apply Hr in H2. apply Hu in H3. apply He in H4. done.
  - intros (c1 & c2 & c3 & c4 & -> & H1 & H2 & H3 & H4).
    destruct H1 as [-> | ->], H2 as [-> | ->], H3 as [-> | ->], H4 as [-> | ->];
      reflexivity.
Qed.

(** X25.  The URL depends only on the settings of its mode: in standalone
    mode it does not depend on the host name or port of the page, in
    integrated mode it does not depend on the configured host or port; in
    both, the scheme of the page picks between the two configured
    protocols. *)
Theorem url_ignores_other_mode (c1 c2 : Config) :
  @isIntegrated c1 = @isIntegrated c2 →
  @protocol c1 = @protocol c2 → @secureProtocol c1 = @secureProtocol c2 →
  @endpoint c1 = @endpoint c2 → @location_protocol c1 = @location_protocol c2 →
  (if @isIntegrated c1
   then @location_hostname c1 = @location_hostname c2 ∧ @location_port c1 = @location_port c2
   else @host c1 = @host c2 ∧ @port c1 = @port c2) →
  @getWebSocketUrl c1 = @getWebSocketUrl c2.
Proof.
  unfold getWebSocketUrl. destruct c1, c2. simpl.
  intros -> -> -> -> -> Hmode.
  destruct isIntegrated1; destruct Hmode as [-> ->]; reflexivity.
Qed.
End Configuration.

(** * Further worked examples *)

Section MoreExamples.
Import HomeView Sample.
#[local] Existing Instance Sample.platform.
#[local] Existing Instance Sample.config.

(** The first transport of [connected], with the JOIN it has sent. *)
#[local] Abbreviation transport0 :=
  {| url := "ws://localhost:8080/chat"; readyState := OPEN;
     sent := [wire_message "JOIN" guest "" t0] |}.

Lemma sent_frames_are_client_frames_witness :
  Forall (λ w, Forall client_frame (sent w)) (sockets connected).
Proof. apply sent_frames_are_client_frames, reachable_run, reach_initial. Defined.

Lemma transports_use_resolved_url_witness :
  Forall (λ w, url w = getWebSocketUrl) (sockets connected).
Proof. apply transports_use_resolved_url, reachable_run, reach_initial. Defined.

Lemma only_messages_change_log_witness :
  messages (step (SendMessage "hi" t0) connected) = messages connected ∧
  userCount (step (SendMessage "hi" t0) connected) = userCount connected.
Proof. apply only_messages_change_log. reflexivity. Defined.

Lemma log_holds_no_control_message_witness :
  Forall loggable (messages (run [WsMessage 0 PONG_text t0; WsMessage 0 CHAT_text t0] connected)).
Proof.
  apply log_holds_no_control_message, reachable_run, reachable_run, reach_initial.
Defined.

Lemma userCount_is_a_number_witness :
  PrimFloat.is_nan (userCount (run [WsMessage 0 USER_COUNT_text t0] connected)) = false.
Proof. apply userCount_is_a_number, reachable_run, reachable_run, reach_initial. Defined.


Lemma echoed_frame_is_logged_witness :
  websocketOnMessage CHAT_text t0 connected
    = set_messages
        (messages connected ++ [wire_message "CHAT" "Ann" "hi" "2025-01-01T00:00:00.000Z"])
        connected.
Proof.
  apply echoed_frame_is_logged.
  - vm_compute. reflexivity.
  - exists "Ann", "hi", "2025-01-01T00:00:00.000Z". left. reflexivity.
Defined.

Lemma status_badge_is_known_witness :
  offered connected ClickConnect = negb (offered connected ClickDisconnect).
Proof.
  destruct (status_badge_is_known connected) as [_ Hbuttons].
  - apply reachable_run, reach_initial.
  - exact Hbuttons.
Defined.

Lemma one_heartbeat_interval_witness :
  1%positive = 1%positive ∧ pingInterval connected = Some 1%positive.
Proof.
  apply (one_heartbeat_interval connected 1 1 10000 10000).
  - apply reachable_run, reach_initial.
  - vm_compute. reflexivity.
  - vm_compute. reflexivity.
Defined.

Lemma send_on_open_transport_witness :
  snd (sendChatMessage "hi" t0 connected) = Fulfilled ∧
  sockets (fst (sendChatMessage "hi" t0 connected)) !! 0
    = Some {| url := "ws://localhost:8080/chat"; readyState := OPEN;
              sent := [wire_message "JOIN" guest "" t0;
                       wire_message "CHAT" guest "hi" t0] |}.
Proof.
  destruct (send_on_open_transport "hi" t0 connected 0 transport0) as (Hdone & Hframe & _).
  - vm_compute. reflexivity.
  - vm_compute. reflexivity.
  - reflexivity.
  - split; [exact Hdone | exact Hframe].
Defined.

Lemma polls_are_independent_witness :
  timers (fst (poll_tick 2 0 "hi" t0 (waiting connected_elsewhere "hi" 0))) !! 1%positive
    = timers (waiting connected_elsewhere "hi" 0) !! 1%positive.
Proof.
  destruct (polls_are_independent 2 1 0 "hi" t0 (waiting connected_elsewhere "hi" 0))
    as (Htimer & _).
  - discriminate.
  - exact Htimer.
Defined.

Lemma open_event_announces_user_witness :
  status (step (WsOpen 0 t0) connecting) = 1 ∧
  pingInterval (step (WsOpen 0 t0) connecting) = Some (nextTimer connecting).
Proof.
  destruct (open_event_announces_user 0 t0 connecting (new_WebSocket getWebSocketUrl))
    as (Hstatus & Hping & _).
  - vm_compute. reflexivity.
  - vm_compute. reflexivity.
  - reflexivity.
  - split; [exact Hstatus | exact Hping].
Defined.

Lemma heartbeat_tick_effect_witness :
  timers (ping_tick t0 connected) = timers connected.
Proof.
  destruct (heartbeat_tick_effect 0 t0 connected transport0) as (Htimers & _).
  - vm_compute. reflexivity.
  - reflexivity.
  - vm_compute. reflexivity.
  - exact Htimers.
Defined.

Lemma disconnect_releases_transport_witness :
  socket (closeConnection connected) = None ∧ status (closeConnection connected) = 2.
Proof.
  destruct (disconnect_releases_transport connected 0 transport0)
    as (Hsocket & Hstatus & _).
  - vm_compute. reflexivity.
  - vm_compute. reflexivity.
  - split; [exact Hsocket | exact Hstatus].
Defined.

Lemma reconnect_timeout_runs_once_witness :
  step (Fire 2 t0) (step (Fire 2 t0) after_drop) = step (Fire 2 t0) after_drop.
Proof.
  destruct (reconnect_timeout_runs_once 2 5000 t0 t0 after_drop) as (_ & Honce & _).
  - vm_compute. reflexivity.
  - exact Honce.
Defined.

Lemma unmount_is_not_a_manual_close_witness :
  status (onBeforeUnmount connected) = 1 ∧
  status (step (WsClose 0) (onBeforeUnmount connected)) = 0.
Proof.
  destruct (unmount_is_not_a_manual_close connected 0 transport0 t0)
    as (Hstatus & _ & _ & Hclosed & _).
  - apply reachable_run, reach_initial.
  - reflexivity.
  - vm_compute. reflexivity.
  - vm_compute. reflexivity.
  - reflexivity.
  - split; [exact Hstatus | exact Hclosed].
Defined.

Lemma service_stale_heartbeat_survives_witness :
  Service.timers (Service.step (Service.Fire 1) service_two_heartbeats) !! 1%positive
    = Some (Interval Service.HeartbeatCb 10000).
Proof.
  apply service_stale_heartbeat_survives.
  - vm_compute. reflexivity.
  - vm_compute. discriminate.
  - vm_compute. discriminate.
Defined.

Lemma service_send_effect_witness :
  Service.send (JStr "hi") service_closing = (service_closing, None).
Proof.
  apply (service_send_effect (JStr "hi") service_closing 0
           {| url := "ws://localhost:8080/chat"; readyState := CLOSING; sent := [] |}).
  - vm_compute. reflexivity.
  - vm_compute. reflexivity.
Defined.

Lemma url_ignores_other_mode_witness :
  @getWebSocketUrl Sample.config = @getWebSocketUrl config_elsewhere.
Proof. apply url_ignores_other_mode; try reflexivity. split; reflexivity. Defined.
End MoreExamples.
